(** * homework_bot: the polling and notification loop of [homework.py]

    A shallow embedding of [src/homework.py] and [src/exceptions.py]:
    decoded JSON as a Python value type, exceptions as a class with its
    argument, every call that reaches the outside (logging, the HTTP request,
    the Telegram send, the sleep) as an event of a trace, and the local
    variables of [main] as an explicit state that survives a raised
    exception. *)

From Stdlib Require Import String Ascii ZArith List Bool Lia DecimalString.
From ExtLib Require Import Structures.Monad.
Import ListNotations.
Import MonadNotation.
Local Open Scope string_scope.
Local Open Scope monad_scope.
Set Warnings "-register-all".

(** ** Python values, as [response.json()] produces them *)

(** A float as far as this program observes one: whether it equals zero
    (its truth value) and its [repr] text. *)
Record pyfloat : Type := PyFloat { float_is_zero : bool; float_repr : string }.

Inductive value : Type :=
| VNone
| VBool (b : bool)
| VInt (n : Z)
| VFloat (x : pyfloat)
| VStr (s : string)
| VList (xs : list value)
| VDict (kvs : list (string * value)).

(** [type(v).__name__] *)
Definition type_name (v : value) : string :=
  match v with
  | VNone => "NoneType"
  | VBool _ => "bool"
  | VInt _ => "int"
  | VFloat _ => "float"
  | VStr _ => "str"
  | VList _ => "list"
  | VDict _ => "dict"
  end.

(** [bool(v)] *)
Definition truthy (v : value) : bool :=
  match v with
  | VNone => false
  | VBool b => b
  | VInt n => negb (n =? 0)%Z
  | VFloat x => negb (float_is_zero x)
  | VStr s => negb (s =? "")
  | VList xs => match xs with [] => false | _ :: _ => true end
  | VDict kvs => match kvs with [] => false | _ :: _ => true end
  end.

(** A dict keeps insertion order (its [repr] shows it); a key is looked up
    by string equality. *)
Fixpoint dict_get {A : Type} (key : string) (kvs : list (string * A)) : option A :=
  match kvs with
  | [] => None
  | (k, v) :: rest => if k =? key then Some v else dict_get key rest
  end.

Definition dict_has {A : Type} (key : string) (kvs : list (string * A)) : bool :=
  match dict_get key kvs with Some _ => true | None => false end.

(** The one-character text of a double quote. *)
Definition dquote : string := String (ascii_of_nat 34) EmptyString.

(** [needle in hay] on two [str]: substring test. *)
Definition str_contains (needle hay : string) : bool :=
  match String.index 0 needle hay with Some _ => true | None => false end.

(** [x == key] for a [str] key: only an equal [str] is equal to it. *)
Definition eq_str (key : string) (x : value) : bool :=
  match x with VStr s => s =? key | _ => false end.

(** ** Exceptions *)

Inductive exc_class : Type :=
| APIEndPointIsNotAvailable   (* exceptions.py *)
| NonCorrectResponseFromAPI   (* exceptions.py *)
| TypeError
| KeyError
| AttributeError
| Exception
| LibraryError                (* a class of requests, json or telegram; all derive from Exception *)
| SystemExit.                 (* sys.exit; does not derive from Exception *)

(** An exception: its class and the argument it was built with. *)
Record exn : Type := Exc { exc_cls : exc_class; exc_arg : value }.

(** [cls('message')] *)
Definition exc (cls : exc_class) (message : string) : exn :=
  Exc cls (VStr message).

Definition derives_from_Exception (c : exc_class) : bool :=
  match c with SystemExit => false | _ => true end.

(** ** The outside world *)

Inductive level : Type := DEBUG | INFO | ERROR | CRITICAL.

(** What [bot.send_message] does to one call. *)
Inductive tg_result : Type :=
| Delivered
| TgError (err : string).      (* raises; [err] is [str(error)] *)

(** What [response.json()] does. *)
Inductive body : Type :=
| Json (v : value)
| NotJson (err : string).      (* raises; [err] is [str(error)] *)

(** The attributes of a [requests.Response] the source reads. *)
Record response : Type := Response {
  status_code : Z;
  reason : string;
  text : string;
  json : body
}.

(** What [requests.get] does to one call. *)
Inductive http_result : Type :=
| NoResponse (err : string)    (* raises; [err] is [str(error)] *)
| Got (r : response).

Inductive event : Type :=
| Log (lvl : level) (text : string)
| Request (from_date : value)
| Send (text : string) (r : tg_result)
| Sleep (seconds : Z).

(** What one cycle of the loop meets: the clock, the answer to its request,
    and the outcome of each of its two possible sends. *)
Record world : Type := World {
  time_time : Z;               (* int(time.time()) *)
  requests_get : http_result;
  tg_status : tg_result;       (* the send at line 163, if it happens *)
  tg_failure : tg_result       (* the send at line 169, if it happens *)
}.

(** ** Computations: a trace of events and a result or a raised exception *)

Definition io (A : Type) : Type := (list event * (exn + A))%type.

Definition io_ret {A : Type} (a : A) : io A := ([], inr a).

Definition io_bind {A B : Type} (c : io A) (k : A -> io B) : io B :=
  match snd c with
  | inl e => (fst c, inl e)
  | inr a => ((fst c ++ fst (k a))%list, snd (k a))
  end.

#[export] Instance Monad_io : Monad io := {| ret := @io_ret; bind := @io_bind |}.

Definition raise {A : Type} (e : exn) : io A := ([], inl e).

Definition emit (ev : event) : io unit := ([ev], inr tt).

(** [try: body  except Exception as error: handler error] *)
Definition try_except {A : Type} (body : io A) (handler : exn -> io A) : io A :=
  match snd body with
  | inl e =>
      if derives_from_Exception (exc_cls e)
      then ((fst body ++ fst (handler e))%list, snd (handler e))
      else body
  | inr _ => body
  end.

Definition trace {A : Type} (c : io A) : list event := fst c.
Definition result {A : Type} (c : io A) : exn + A := snd c.

Definition logging (lvl : level) (text : string) : io unit := emit (Log lvl text).

(** Projections of a trace. *)
Definition requests (t : list event) : list value :=
  flat_map (fun ev => match ev with Request v => [v] | _ => [] end) t.

(** Every text handed to [bot.send_message], delivered or not. *)
Definition attempted (t : list event) : list string :=
  flat_map (fun ev => match ev with Send m _ => [m] | _ => [] end) t.

(** The texts that reached the chat. *)
Definition delivered (t : list event) : list string :=
  flat_map (fun ev => match ev with Send m Delivered => [m] | _ => [] end) t.

Definition errors_logged (t : list event) : list string :=
  flat_map (fun ev => match ev with Log ERROR m => [m] | _ => [] end) t.

(** ** Constants of the module *)

Definition RETRY_PERIOD : Z := 600.
Definition ENDPOINT : string :=
  "https://practicum.yandex.ru/api/user_api/homework_statuses/".
Definition HTTPStatus_OK : Z := 200.

Definition HOMEWORK_VERDICTS : list (string * string) :=
  [ ("approved", "Работа проверена: ревьюеру всё понравилось. Ура!");
    ("reviewing", "Работа взята на проверку ревьюером.");
    ("rejected", "Работа проверена: у ревьюера есть замечания.") ].

Section Python.

(** [repr] of a [str]: the quoting and escaping of CPython, which depends on
    the Unicode category of each character. *)
Variable repr_str : string -> string.

Fixpoint py_repr (v : value) : string :=
  match v with
  | VNone => "None"
  | VBool true => "True"
  | VBool false => "False"
  | VInt n => NilZero.string_of_int (Z.to_int n)
  | VFloat x => float_repr x
  | VStr s => repr_str s
  | VList xs => "[" ++ String.concat ", " (map py_repr xs) ++ "]"
  | VDict kvs =>
      "{" ++ String.concat ", "
               (map (fun kv => repr_str (fst kv) ++ ": " ++ py_repr (snd kv)) kvs)
          ++ "}"
  end.

(** [str(v)], what an f-string field shows. *)
Definition py_str (v : value) : string :=
  match v with
  | VStr s => s
  | _ => py_repr v
  end.

(** [str(error)]: [str] of the argument, except that a [KeyError] shows its
    [repr]. *)
Definition exc_str (e : exn) : string :=
  match exc_cls e with
  | KeyError => py_repr (exc_arg e)
  | _ => py_str (exc_arg e)
  end.

(** ** Operations of the language the source uses on decoded values *)

(** ['key' in container]; the texts of the built-in errors are those of
    CPython up to 3.13. *)
Definition py_in (key : string) (container : value) : io bool :=
  match container with
  | VDict kvs => ret (dict_has key kvs)
  | VList xs => ret (existsb (eq_str key) xs)
  | VStr s => ret (str_contains key s)
  | _ => raise (exc TypeError
                  ("argument of type '" ++ type_name container ++ "' is not iterable"))
  end.

(** [obj.get('key')] *)
Definition py_get (obj : value) (key : string) : io value :=
  match obj with
  | VDict kvs => ret (match dict_get key kvs with Some v => v | None => VNone end)
  | _ => raise (exc AttributeError
                  ("'" ++ type_name obj ++ "' object has no attribute 'get'"))
  end.

(** [key in HOMEWORK_VERDICTS]: the key is hashed first. *)
Definition in_HOMEWORK_VERDICTS (key : value) : io bool :=
  match key with
  | VList _ | VDict _ =>
      raise (exc TypeError ("unhashable type: '" ++ type_name key ++ "'"))
  | VStr s => ret (dict_has s HOMEWORK_VERDICTS)
  | _ => ret false
  end.

(** [HOMEWORK_VERDICTS[key]] *)
Definition HOMEWORK_VERDICTS_getitem (key : value) : io string :=
  match key with
  | VList _ | VDict _ =>
      raise (exc TypeError ("unhashable type: '" ++ type_name key ++ "'"))
  | VStr s =>
      match dict_get s HOMEWORK_VERDICTS with
      | Some verdict => ret verdict
      | None => raise (Exc KeyError key)
      end
  | _ => raise (Exc KeyError key)
  end.

(** ** The functions of [homework.py] *)

(** [bot.send_message(chat_id=TELEGRAM_CHAT_ID, text=message)] *)
Definition bot_send_message (r : tg_result) (message : string) : io unit :=
  emit (Send message r) ;;
  match r with
  | Delivered => ret tt
  | TgError err => raise (exc LibraryError err)
  end.

Definition send_message (bot : tg_result) (message : string) : io unit :=
  try_except
    (logging INFO "Отправка статуса в telegram" ;;
     bot_send_message bot message ;;
     logging DEBUG ("Успешная отправка сообщения: " ++ message))
    (fun error =>
       logging ERROR ("Ошибка отправки сообщения в Telegram - " ++ exc_str error) ;;
       raise (exc Exception ("Ошибка при отправке сообщения-статус: " ++ exc_str error))).

(** [requests.get(ENDPOINT, headers=HEADERS, params=payload)] *)
Definition requests_get_call (w : world) (timestamp : value) : io response :=
  emit (Request timestamp) ;;
  match requests_get w with
  | NoResponse err => raise (exc LibraryError err)
  | Got r => ret r
  end.

(** [response.json()] *)
Definition response_json (b : body) : io value :=
  match b with
  | Json v => ret v
  | NotJson err => raise (exc LibraryError err)
  end.

Definition get_api_answer (w : world) (current_timestamp : value) : io value :=
  let timestamp :=
    if truthy current_timestamp then current_timestamp else VInt (time_time w) in
  logging INFO ("<><><><><><><><><>><><><><><><><><><><><><><><><><><><><>>"
                ++ "Запрос к API. URL: " ++ ENDPOINT ++ ", время: " ++ py_str timestamp) ;;
  try_except
    (response <- requests_get_call w timestamp ;;
     if negb (status_code response =? HTTPStatus_OK)%Z then
       logging ERROR
         ("Ответ API не вернул статус 200 ОК."
          ++ "Ответ вернул код: " ++ py_str (VInt (status_code response)) ++ "."
          ++ "Причина: " ++ reason response ++ "."
          ++ "Текст: " ++ text response ++ ".") ;;
       raise (exc APIEndPointIsNotAvailable "Ответ API не вернул статус 200 ОК.")
     else
       response_json <- response_json (json response) ;;
       logging DEBUG ("По запросу к API, получен ответ- " ++ py_str response_json) ;;
       ret response_json)
    (fun error =>
       logging ERROR ("Ошибка при запросе к API: " ++ exc_str error) ;;
       raise (exc APIEndPointIsNotAvailable ("Ошибка при запросе к API: " ++ exc_str error))).

Definition check_response (response : value) : io (list value) :=
  logging INFO "Проверка корректности ответа API" ;;
  match response with
  | VDict _ =>
      has_homeworks <- py_in "homeworks" response ;;
      missing <-
        (if negb has_homeworks then ret true
         else has_current_date <- py_in "current_date" response ;;
              ret (negb has_current_date)) ;;
      if (missing : bool) then
        logging ERROR "Нет ключей homeworks или current_date в ответе API" ;;
        raise (exc NonCorrectResponseFromAPI "Нет ключа homeworks в ответе API")
      else
        homeworks <- py_get response "homeworks" ;;
        match homeworks with
        | VList items => ret items
        | _ =>
            logging ERROR
              ("Ответ в API homeworks:" ++ py_str homeworks ++ " не является list") ;;
            raise (exc TypeError
                     ("Ответ в API homeworks:" ++ py_str homeworks ++ " не является list"))
        end
  | _ =>
      logging ERROR "Полученный ответ API не является dict" ;;
      raise (exc TypeError "Полученный ответ API не является dict")
  end.

Definition parse_status (homework : value) : io string :=
  logging INFO "Извлекаем статус работы для отправки в Telegram" ;;
  has_name <- py_in "homework_name" homework ;;
  if negb has_name then
    logging ERROR "Нет ключа homework_name в ответе API" ;;
    raise (exc KeyError "Нет ключа homework_name в ответе API")
  else
    homework_name <- py_get homework "homework_name" ;;
    homework_status <- py_get homework "status" ;;
    known <- in_HOMEWORK_VERDICTS homework_status ;;
    if negb known then
      raise (exc KeyError ("Неизвестный статус работы - " ++ py_str homework_status))
    else
      verdict <- HOMEWORK_VERDICTS_getitem homework_status ;;
      logging INFO ("Статус работы " ++ py_str homework_name ++ ": " ++ verdict) ;;
      ret ("Изменился статус проверки работы " ++ dquote ++ py_str homework_name
           ++ dquote ++ ". " ++ verdict).

(** ** The locals of [main] and its loop *)

Record state : Type := State {
  current_timestamp : value;
  last_message : string
}.

(** A block of [main]: it may assign the locals, and what it assigned stays
    assigned when it raises. *)
Definition prog (A : Type) : Type := state -> state * io A.

Definition prog_ret {A : Type} (a : A) : prog A := fun st => (st, ret a).

Definition prog_bind {A B : Type} (c : prog A) (k : A -> prog B) : prog B :=
  fun st =>
    let r1 := c st in
    match result (snd r1) with
    | inl e => (fst r1, (trace (snd r1), inl e))
    | inr a =>
        let r2 := k a (fst r1) in
        (fst r2, ((trace (snd r1) ++ trace (snd r2))%list, result (snd r2)))
    end.

#[export] Instance Monad_prog : Monad prog := {| ret := @prog_ret; bind := @prog_bind |}.

Definition lift {A : Type} (c : io A) : prog A := fun st => (st, c).

Definition load {A : Type} (field : state -> A) : prog A := fun st => (st, ret (field st)).

Definition set_current_timestamp (v : value) : prog unit :=
  fun st => (State v (last_message st), ret tt).

Definition set_last_message (m : string) : prog unit :=
  fun st => (State (current_timestamp st) m, ret tt).

(** [try: body  except Exception as error: handler error] *)
Definition prog_try_except {A : Type} (body : prog A) (handler : exn -> prog A) : prog A :=
  fun st =>
    let r1 := body st in
    match result (snd r1) with
    | inl e =>
        if derives_from_Exception (exc_cls e) then
          let r2 := handler e (fst r1) in
          (fst r2, ((trace (snd r1) ++ trace (snd r2))%list, result (snd r2)))
        else r1
    | inr _ => r1
    end.

(** [try: body  finally: final]: [final] always runs; what [body] raised is
    raised again after it, unless [final] raises itself. *)
Definition prog_finally {A : Type} (body : prog A) (final : prog unit) : prog A :=
  fun st =>
    let r1 := body st in
    let r2 := final (fst r1) in
    (fst r2,
     ((trace (snd r1) ++ trace (snd r2))%list,
      match result (snd r2) with
      | inl e => inl e
      | inr _ => result (snd r1)
      end)).

Definition time_sleep (seconds : Z) : io unit := emit (Sleep seconds).

(** Lines 155-161: fetch, move the cursor, validate, render the message. *)
Definition main_message (w : world) : prog string :=
  cursor <- load current_timestamp ;;
  response <- lift (get_api_answer w cursor) ;;
  current_date <- lift (py_get response "current_date") ;;
  set_current_timestamp current_date ;;
  homeworks_response <- lift (check_response response) ;;
  match homeworks_response with
  | homework :: _ => lift (parse_status homework)
  | [] => ret "Статус не изменился"
  end.

(** Lines 162-165: send the message unless it is the last one sent here. *)
Definition main_notify (w : world) (message : string) : prog unit :=
  last <- load last_message ;;
  if negb (message =? last) then
    lift (send_message (tg_status w) message) ;;
    set_last_message message ;;
    lift (logging INFO ("Получен новый статус домашней работы:" ++ message))
  else ret tt.

(** Lines 155-165, the body of the [try]. *)
Definition main_try (w : world) : prog unit :=
  message <- main_message w ;;
  main_notify w message.

(** The text of line 167. *)
Definition failure_text (error : exn) : string :=
  "Сбой в работе программы: " ++ exc_str error.

(** Lines 166-169, the [except Exception as error] handler. *)
Definition main_except (w : world) (error : exn) : prog unit :=
  let message := failure_text error in
  lift (logging ERROR message) ;;
  lift (send_message (tg_failure w) message).

(** Lines 154-171: one pass through the body of [while True]. *)
Definition main_cycle (w : world) : prog unit :=
  prog_finally
    (prog_try_except (main_try w) (main_except w))
    (lift (time_sleep RETRY_PERIOD)).

(** [while True] along a finite prefix of the worlds it meets: the loop is
    left only by an exception that a cycle lets through. *)
Fixpoint main_loop (ws : list world) : prog unit :=
  match ws with
  | [] => ret tt
  | w :: rest => main_cycle w ;; main_loop rest
  end.

(** The locals as line 152 leaves them. *)
Definition loop_start : state :=
  {| current_timestamp := VInt 1667322796; last_message := "" |}.

(** The three values [os.getenv] gave at import. *)
Record tokens : Type := Tokens {
  PRACTICUM_TOKEN : option string;
  TELEGRAM_TOKEN : option string;
  TELEGRAM_CHAT_ID : option string
}.

(** [bool] of what [os.getenv] returns. *)
Definition is_set (token : option string) : bool :=
  match token with Some s => negb (s =? "") | None => false end.

Definition check_tokens (env : tokens) : io bool :=
  logging INFO "Проверяем доступность переменных окружения" ;;
  ret (forallb is_set [PRACTICUM_TOKEN env; TELEGRAM_TOKEN env; TELEGRAM_CHAT_ID env]).

(** [main], with the tokens read from the environment, the outcome of the
    start-up send and the worlds of the cycles that follow. *)
Definition main (env : tokens) (tg_start : tg_result) (ws : list world) : io unit :=
  ok <- check_tokens env ;;
  if negb ok then
    let message := "Отсутствуют переменные окружения. Бот прекращает работу!" in
    logging CRITICAL message ;;
    raise (exc SystemExit message)
  else
    logging INFO "Telegram bot начал работу" ;;
    send_message tg_start "Telegram bot начал работу" ;;
    snd (main_loop ws loop_start).

(** ** Runs of the loop the properties speak of *)

(** A cycle of [w] renders [m] and Telegram accepts the status send. *)
Definition successful (w : world) (m : string) : Prop :=
  (forall st, result (snd (main_message w st)) = inr m)
  /\ tg_status w = Delivered.

(** From [st] on, every cycle along [ws] ends in the handler with the same
    error [e], and every failure report is delivered. *)
Fixpoint recurring (e : exn) (ws : list world) (st : state) : Prop :=
  match ws with
  | [] => True
  | w :: rest =>
      result (snd (main_try w st)) = inl e
      /\ tg_failure w = Delivered
      /\ recurring e rest (fst (main_cycle w st))
  end.

End Python.

Arguments get_api_answer : simpl never.
Arguments check_response : simpl never.
Arguments parse_status : simpl never.
Arguments send_message : simpl never.

(** ** [repr] of a [str], computed

    CPython's rule on the bytes of a UTF-8 text: the text goes between single
    quotes, or between double quotes when it holds a single quote and no
    double quote; the enclosing quote and the backslash are escaped, tab, line
    feed and carriage return are written with their letters and the other
    ASCII control characters in hexadecimal.  Bytes above 127 are kept, which
    is what CPython does for every printable character (letters of any
    script); this function is used below only on such texts. *)

Definition hex_digit (n : nat) : string :=
  String.substring n 1 "0123456789abcdef".

Definition escape_char (quote c : ascii) : string :=
  let n := nat_of_ascii c in
  if (c =? quote)%char || (n =? 92)%nat then String (ascii_of_nat 92) (String c "")
  else if (n =? 9)%nat then String (ascii_of_nat 92) "t"
  else if (n =? 10)%nat then String (ascii_of_nat 92) "n"
  else if (n =? 13)%nat then String (ascii_of_nat 92) "r"
  else if (n <? 32)%nat || (n =? 127)%nat then
    String (ascii_of_nat 92) ("x" ++ hex_digit (n / 16) ++ hex_digit (n mod 16))
  else String c "".

Fixpoint escape (quote : ascii) (s : string) : string :=
  match s with
  | EmptyString => ""
  | String c rest => escape_char quote c ++ escape quote rest
  end.

Definition repr_utf8 (s : string) : string :=
  let quote :=
    if str_contains "'" s && negb (str_contains dquote s)
    then ascii_of_nat 34 else ascii_of_nat 39 in
  String quote (escape quote s ++ String quote "").

(** ** Error kinds of the specification, as predicates on what is raised *)

(** EndpointUnavailable *)
Definition EndpointUnavailable (e : exn) : Prop :=
  exc_cls e = APIEndPointIsNotAvailable.

(** MalformedResponse: what [check_response] raises on a bad envelope, a
    [TypeError] or a [NonCorrectResponseFromAPI]. *)
Definition MalformedResponse (e : exn) : Prop :=
  exc_cls e = TypeError \/ exc_cls e = NonCorrectResponseFromAPI.

(** MissingField *)
Definition MissingField : exn :=
  exc KeyError "Нет ключа homework_name в ответе API".

(** UnknownVerdict, carrying the text of the offending value. *)
Definition UnknownVerdict (shown : string) : exn :=
  exc KeyError ("Неизвестный статус работы - " ++ shown).

Definition is_mapping (v : value) : Prop := exists kvs, v = VDict kvs.

Definition has_key (key : string) (v : value) : Prop :=
  exists kvs x, v = VDict kvs /\ dict_get key kvs = Some x.

(** The value under [homeworks] is the list [items]. *)
Definition homeworks_are (v : value) (items : list value) : Prop :=
  exists kvs, v = VDict kvs /\ dict_get "homeworks" kvs = Some (VList items).

(** A value that can be hashed: anything decoded but a list or a dict. *)
Definition hashable (v : value) : bool :=
  match v with VList _ | VDict _ => false | _ => true end.

(** [homework.get('status')] on a record. *)
Definition status_of (kvs : list (string * value)) : value :=
  match dict_get "status" kvs with Some v => v | None => VNone end.

(** The verdict of a status, when it is a known one. *)
Definition verdict_of (status : value) : option string :=
  match status with VStr s => dict_get s HOMEWORK_VERDICTS | _ => None end.

(** What line 127 renders. *)
Definition status_text (name verdict : string) : string :=
  "Изменился статус проверки работы " ++ dquote ++ name ++ dquote ++ ". " ++ verdict.

(** A stage that sends nothing and raises only what [except Exception]
    catches. *)
Definition quiet {A : Type} (c : io A) : Prop :=
  attempted (trace c) = []
  /\ forall e, result c = inl e -> derives_from_Exception (exc_cls e) = true.

(** A stage that makes no request. *)
Definition offline {A : Type} (c : io A) : Prop := requests (trace c) = [].

(** What [send_message] raises when Telegram refuses with [err]. *)
Definition send_failed (err : string) : exn :=
  exc Exception ("Ошибка при отправке сообщения-статус: " ++ err).

(** The events of a call of [send_message]. *)
Definition send_events (bot : tg_result) (message : string) : list event :=
  [Log INFO "Отправка статуса в telegram";
   Send message bot;
   match bot with
   | Delivered => Log DEBUG ("Успешная отправка сообщения: " ++ message)
   | TgError err => Log ERROR ("Ошибка отправки сообщения в Telegram - " ++ err)
   end].

(** [s.startswith(prefix)] *)
Fixpoint starts_with (prefix s : string) : bool :=
  match prefix, s with
  | EmptyString, _ => true
  | String a prefix', String b s' => Ascii.eqb a b && starts_with prefix' s'
  | String _ _, EmptyString => false
  end.

(** The text is a failure report of line 167. *)
Definition is_failure_text (m : string) : bool :=
  starts_with "Сбой в работе программы: " m.

(** The delivered texts that are not failure reports. *)
Definition statuses_delivered (t : list event) : list string :=
  filter (fun m => negb (is_failure_text m)) (delivered t).

(** The messages of [ms] that differ from the one before them, [last] being
    before the first. *)
Fixpoint skip_repeats (last : string) (ms : list string) : list string :=
  match ms with
  | [] => []
  | m :: rest =>
      if m =? last then skip_repeats last rest else m :: skip_repeats m rest
  end.

(** ** Inputs used in the examples below *)

Definition record_approved : list (string * value) :=
  [("homework_name", VStr "proj1"); ("status", VStr "approved")].

Definition record_rejected : list (string * value) :=
  [("homework_name", VStr "proj1"); ("status", VStr "rejected")].

Definition record_lost : list (string * value) :=
  [("homework_name", VStr "proj1"); ("status", VStr "lost")].

Definition record_unhashable : list (string * value) :=
  [("homework_name", VStr "proj1"); ("status", VList [])].

Definition record_without_status : list (string * value) :=
  [("homework_name", VStr "proj1")].

(** A well-formed answer of the endpoint. *)
Definition batch (homeworks : list value) (current_date : Z) : value :=
  VDict [("homeworks", VList homeworks); ("current_date", VInt current_date)].

(** An answer whose [homeworks] is not a list. *)
Definition batch_without_list : value :=
  VDict [("homeworks", VStr "none"); ("current_date", VInt 1700000000)].

(** A cycle in which the endpoint answers 200 with [v] and Telegram works. *)
Definition answers (v : value) : world :=
  {| time_time := 1700000600;
     requests_get := Got (Response 200 "OK" "" (Json v));
     tg_status := Delivered;
     tg_failure := Delivered |}.

(** A cycle in which the request fails; Telegram treats the failure report
    as [bot] says. *)
Definition unreachable (bot : tg_result) : world :=
  {| time_time := 1700000600;
     requests_get := NoResponse "boom";
     tg_status := Delivered;
     tg_failure := bot |}.

(** What [get_api_answer] raises in an [unreachable] cycle. *)
Definition unreachable_error : exn :=
  exc APIEndPointIsNotAvailable "Ошибка при запросе к API: boom".

(** ** Further readings of a trace and of the environment *)

(** A token that [check_tokens] counts as missing: not in the environment,
    or set to the empty text. *)
Definition unset (token : option string) : Prop :=
  token = None \/ token = Some "".

(** The trace holds nothing but log lines. *)
Definition only_logs (t : list event) : bool :=
  forallb (fun ev => match ev with Log _ _ => true | _ => false end) t.

(** The lengths of the sleeps of a trace. *)
Definition sleeps (t : list event) : list Z :=
  flat_map (fun ev => match ev with Sleep n => [n] | _ => [] end) t.



(** An environment without the Telegram token. *)
Definition tokens_incomplete : tokens :=
  {| PRACTICUM_TOKEN := Some "practicum";
     TELEGRAM_TOKEN := None;
     TELEGRAM_CHAT_ID := Some "42" |}.

(** A cycle in which the endpoint answers 200 with [v] and Telegram refuses
    the status message. *)
Definition refusing (v : value) : world :=
  {| time_time := 1700000600;
     requests_get := Got (Response 200 "OK" "" (Json v));
     tg_status := TgError "down";
     tg_failure := Delivered |}.

(** What line 127 renders for [record_approved] and for [record_rejected]. *)
Definition approved_text : string :=
  status_text "proj1" "Работа проверена: ревьюеру всё понравилось. Ура!".

Definition rejected_text : string :=
  status_text "proj1" "Работа проверена: у ревьюера есть замечания.".

(** The record under which the endpoint lists homeworks, cut short. *)
Definition answer_of (homeworks : list value) : list (string * value) :=
  [("homeworks", VList homeworks); ("current_date", VInt 1700000000)].

Section Properties.

Variable repr_str : string -> string.

#[local] Abbreviation py_str := (py_str repr_str).
#[local] Abbreviation exc_str := (exc_str repr_str).
#[local] Abbreviation get_api_answer := (get_api_answer repr_str).
#[local] Abbreviation check_response := (check_response repr_str).
#[local] Abbreviation parse_status := (parse_status repr_str).
#[local] Abbreviation successful := (successful repr_str).
#[local] Abbreviation recurring := (recurring repr_str).
#[local] Abbreviation main_message := (main_message repr_str).
#[local] Abbreviation main_try := (main_try repr_str).
#[local] Abbreviation main_cycle := (main_cycle repr_str).
#[local] Abbreviation main_loop := (main_loop repr_str).
#[local] Abbreviation failure_text := (failure_text repr_str).
#[local] Abbreviation send_message := (send_message repr_str).
#[local] Abbreviation main_notify := (main_notify repr_str).

(** *** Results and raised exceptions *)

Lemma raised_inj {A : Type} (e1 e2 : exn) :
  @inl exn A e1 = inl e2 -> e1 = e2.
Proof.
  intros H.
  exact (f_equal (fun r => match r with inl e => e | inr _ => e1 end) H).
Qed.

Lemma returned_inj {A : Type} (a1 a2 : A) :
  @inr exn A a1 = inr a2 -> a1 = a2.
Proof.
  intros H.
  exact (f_equal (fun r => match r with inl _ => a1 | inr a => a end) H).
Qed.

(** *** The fetcher *)

Lemma get_api_answer_result (w : world) (cursor : value) :
  result (get_api_answer w cursor) =
    match requests_get w with
    | NoResponse err =>
        inl (exc APIEndPointIsNotAvailable ("Ошибка при запросе к API: " ++ err))
    | Got r =>
        if (status_code r =? HTTPStatus_OK)%Z then
          match json r with
          | Json v => inr v
          | NotJson err =>
              inl (exc APIEndPointIsNotAvailable ("Ошибка при запросе к API: " ++ err))
          end
        else
          inl (exc APIEndPointIsNotAvailable
                 "Ошибка при запросе к API: Ответ API не вернул статус 200 ОК.")
    end.
Proof.
  unfold get_api_answer, requests_get_call.
  destruct (requests_get w) as [err | r]; [reflexivity |].
  cbn. destruct (status_code r =? HTTPStatus_OK)%Z; [| reflexivity].
  destruct (json r); reflexivity.
Qed.

Lemma get_api_answer_requests (w : world) (cursor : value) :
  requests (trace (get_api_answer w cursor)) =
    [if truthy cursor then cursor else VInt (time_time w)].
Proof.
  unfold get_api_answer, requests_get_call.
  destruct (requests_get w) as [err | r]; [reflexivity |].
  cbn. destruct (status_code r =? HTTPStatus_OK)%Z; [| reflexivity].
  destruct (json r); reflexivity.
Qed.

(** C7. Every call of [get_api_answer] makes exactly one request (carrying
    the cursor, or the clock when the cursor is falsy), and whatever goes
    wrong -- [requests.get] raising, a status code other than 200, a body
    that does not decode -- is raised as [APIEndPointIsNotAvailable]; no
    other class of exception leaves the function. *)
Theorem get_api_answer_one_attempt_one_failure_kind (w : world) (cursor : value) :
  requests (trace (get_api_answer w cursor)) =
    [if truthy cursor then cursor else VInt (time_time w)]
  /\ (forall e, result (get_api_answer w cursor) = inl e -> EndpointUnavailable e)
  /\ (forall err, requests_get w = NoResponse err ->
        exists e, result (get_api_answer w cursor) = inl e /\ EndpointUnavailable e)
  /\ (forall r, requests_get w = Got r -> status_code r <> HTTPStatus_OK ->
        exists e, result (get_api_answer w cursor) = inl e /\ EndpointUnavailable e)
  /\ (forall r err, requests_get w = Got r -> json r = NotJson err ->
        exists e, result (get_api_answer w cursor) = inl e /\ EndpointUnavailable e)
  /\ (forall r v, requests_get w = Got r -> status_code r = HTTPStatus_OK ->
        json r = Json v -> result (get_api_answer w cursor) = inr v).
Proof.
  split; [apply get_api_answer_requests |].
  rewrite get_api_answer_result.
  repeat split.
  - intros e. destruct (requests_get w) as [err | r].
    + intros [= <-]. reflexivity.
    + destruct (status_code r =? HTTPStatus_OK)%Z.
      * destruct (json r); [discriminate | intros [= <-]; reflexivity].
      * intros [= <-]. reflexivity.
  - intros err ->. eexists. split; reflexivity.
  - intros r -> Hcode. apply Z.eqb_neq in Hcode. rewrite Hcode.
    eexists. split; reflexivity.
  - intros r err -> Hjson. rewrite Hjson.
    destruct (status_code r =? HTTPStatus_OK)%Z; eexists; split; reflexivity.
  - intros r v -> Hcode Hjson. rewrite Hcode, Hjson. reflexivity.
Qed.

(** *** The validator *)

Lemma check_response_result (response : value) :
  result (check_response response) =
    match response with
    | VDict kvs =>
        if dict_has "homeworks" kvs && dict_has "current_date" kvs then
          match dict_get "homeworks" kvs with
          | Some (VList items) => inr items
          | Some other =>
              inl (exc TypeError
                     ("Ответ в API homeworks:" ++ py_str other ++ " не является list"))
          | None =>
              inl (exc TypeError
                     ("Ответ в API homeworks:" ++ py_str VNone ++ " не является list"))
          end
        else inl (exc NonCorrectResponseFromAPI "Нет ключа homeworks в ответе API")
    | _ => inl (exc TypeError "Полученный ответ API не является dict")
    end.
Proof.
  destruct response as [| b | n | x | s | xs | kvs]; try reflexivity.
  unfold check_response. cbn.
  destruct (dict_has "homeworks" kvs); [| reflexivity].
  cbn. destruct (dict_has "current_date" kvs); [| reflexivity].
  cbn. destruct (dict_get "homeworks" kvs) as [[| b | n | x | s | xs | kvs'] |];
    reflexivity.
Qed.

Lemma dict_has_true {A : Type} (key : string) (kvs : list (string * A)) :
  dict_has key kvs = true <-> exists x, dict_get key kvs = Some x.
Proof.
  unfold dict_has. destruct (dict_get key kvs) as [x |]; split.
  - eauto.
  - reflexivity.
  - discriminate.
  - intros [x [=]].
Qed.

(** C5. [check_response] raises a MalformedResponse exactly when its
    argument is not a mapping, or lacks the key [homeworks] or the key
    [current_date], or holds under [homeworks] something that is not a list;
    it raises nothing else, and otherwise it returns the list under
    [homeworks]. *)
Theorem check_response_malformed_iff (response : value) :
  ((exists e, result (check_response response) = inl e /\ MalformedResponse e)
   <-> (~ is_mapping response
        \/ ~ has_key "homeworks" response
        \/ ~ has_key "current_date" response
        \/ ~ exists items, homeworks_are response items))
  /\ (forall e, result (check_response response) = inl e -> MalformedResponse e)
  /\ (forall items,
        result (check_response response) = inr items
        <-> has_key "current_date" response /\ homeworks_are response items).
Proof.
  assert (Hraises : forall e,
             result (check_response response) = inl e -> MalformedResponse e).
  { intros e. rewrite check_response_result. unfold MalformedResponse.
    destruct response as [| b | n | x | s | xs | kvs];
      try (intros [= <-]; left; reflexivity).
    destruct (dict_has "homeworks" kvs && dict_has "current_date" kvs);
      [| intros [= <-]; right; reflexivity].
    destruct (dict_get "homeworks" kvs) as [[| b | n | x | s | xs | kvs'] |];
      try (intros [= <-]; left; reflexivity). }
  assert (Hreturns : forall items,
             result (check_response response) = inr items
             <-> has_key "current_date" response /\ homeworks_are response items).
  { intros items. rewrite check_response_result. unfold has_key, homeworks_are.
    destruct response as [| b | n | x | s | xs | kvs];
      try (split; [discriminate | intros [[kvs [x' [[=] _]]] _]]).
    destruct (dict_has "current_date" kvs) eqn:Hdate.
    - apply dict_has_true in Hdate. destruct Hdate as [d Hdate].
      unfold dict_has.
      destruct (dict_get "homeworks" kvs) as [[| b | n | x | s | xs | kvs'] |] eqn:Hhw;
        cbn; (split;
              [ try discriminate
              | intros [_ [kvs0 [[= <-] H0]]]; rewrite Hhw in H0; try discriminate ]).
      + intros [= <-]. split; [exists kvs, d | exists kvs]; auto.
      + injection H0 as <-. reflexivity.
    - rewrite andb_false_r. split; [discriminate |].
      intros [[kvs0 [x [[= <-] H0]]] _].
      assert (dict_has "current_date" kvs = true) by (apply dict_has_true; eauto).
      congruence. }
  split; [| split; assumption].
  split.
  - intros [e [He _]].
    destruct response as [| b | n | x | s | xs | kvs];
      try (left; intros [kvs [=]]).
    right.
    destruct (dict_get "homeworks" kvs) as [hw |] eqn:Hhw.
    + destruct (dict_get "current_date" kvs) as [d |] eqn:Hdate.
      * right. right. intros [items Hitems].
        assert (result (check_response (VDict kvs)) = inr items) as Hok.
        { apply Hreturns. split; [exists kvs, d; auto | exact Hitems]. }
        congruence.
      * right. left. intros [kvs0 [x [[= <-] H0]]]. congruence.
    + left. intros [kvs0 [x [[= <-] H0]]]. congruence.
  - intros Hbad.
    destruct (result (check_response response)) as [e | items] eqn:Hres.
    + exists e. split; [reflexivity | apply Hraises; reflexivity].
    + exfalso. destruct (proj1 (Hreturns items) eq_refl) as [Hdate Hitems].
      destruct Hbad as [H | [H | [H | H]]].
      * apply H. destruct Hitems as [kvs [-> _]]. exists kvs. reflexivity.
      * apply H. destruct Hitems as [kvs [-> Hhw]]. exists kvs, (VList items). auto.
      * apply H. exact Hdate.
      * apply H. exists items. exact Hitems.
Qed.

(** *** Status extraction *)

Lemma parse_status_record (kvs : list (string * value)) :
  result (parse_status (VDict kvs)) =
    match dict_get "homework_name" kvs with
    | None => inl MissingField
    | Some name =>
        if hashable (status_of kvs) then
          match verdict_of (status_of kvs) with
          | Some verdict => inr (status_text (py_str name) verdict)
          | None => inl (UnknownVerdict (py_str (status_of kvs)))
          end
        else
          inl (exc TypeError ("unhashable type: '" ++ type_name (status_of kvs) ++ "'"))
    end.
Proof.
  unfold parse_status, status_of. cbn. unfold dict_has.
  destruct (dict_get "homework_name" kvs) as [name |]; [| reflexivity].
  cbn.
  destruct (dict_get "status" kvs) as [[| b | n | x | s | xs | kvs'] |];
    try reflexivity.
  unfold in_HOMEWORK_VERDICTS, HOMEWORK_VERDICTS_getitem, verdict_of, dict_has.
  generalize HOMEWORK_VERDICTS as verdicts. intros verdicts. cbn.
  destruct (dict_get s verdicts) as [verdict |]; reflexivity.
Qed.

Lemma known_status_has_verdict (status : string) :
  In status ["approved"; "reviewing"; "rejected"] <->
  exists verdict, dict_get status HOMEWORK_VERDICTS = Some verdict.
Proof.
  split.
  - intros [<- | [<- | [<- | []]]]; eexists; reflexivity.
  - intros [verdict H].
    cbv beta iota delta [dict_get HOMEWORK_VERDICTS] in H.
    destruct ("approved" =? status) eqn:E1;
      [apply String.eqb_eq in E1; left; exact E1 |].
    destruct ("reviewing" =? status) eqn:E2;
      [apply String.eqb_eq in E2; right; left; exact E2 |].
    destruct ("rejected" =? status) eqn:E3;
      [apply String.eqb_eq in E3; right; right; left; exact E3 |].
    discriminate.
Qed.

(** C6, as amended.  For a record with a [homework_name]: when its status
    is one of approved, reviewing, rejected, [parse_status] returns the text
    of line 127, made of the name and of the verdict that [HOMEWORK_VERDICTS]
    gives for the status; when its status is any other hashable value (a
    string outside the three, a number, a boolean, [None], also when the key
    is absent), it raises the unknown-status [KeyError] whose text ends with
    that value. *)
Theorem parse_status_known_or_unknown (kvs : list (string * value)) (name : value) :
  dict_get "homework_name" kvs = Some name ->
  (forall status,
      In status ["approved"; "reviewing"; "rejected"] ->
      dict_get "status" kvs = Some (VStr status) ->
      exists verdict,
        dict_get status HOMEWORK_VERDICTS = Some verdict
        /\ result (parse_status (VDict kvs)) = inr (status_text (py_str name) verdict))
  /\ (hashable (status_of kvs) = true ->
      (forall status,
          In status ["approved"; "reviewing"; "rejected"] ->
          status_of kvs <> VStr status) ->
      result (parse_status (VDict kvs)) = inl (UnknownVerdict (py_str (status_of kvs)))).
Proof.
  intros Hname. rewrite parse_status_record, Hname. split.
  - intros status Hin Hstatus.
    apply known_status_has_verdict in Hin. destruct Hin as [verdict Hverdict].
    exists verdict. split; [exact Hverdict |].
    unfold status_of. rewrite Hstatus. cbn [hashable verdict_of].
    rewrite Hverdict. reflexivity.
  - intros Hhash Hother. rewrite Hhash.
    destruct (verdict_of (status_of kvs)) as [verdict |] eqn:Hverdict; [| reflexivity].
    exfalso. unfold verdict_of in Hverdict.
    destruct (status_of kvs) as [| b | n | x | s | xs | kvs'] eqn:Hstatus;
      try discriminate.
    apply (Hother s); [| reflexivity].
    apply known_status_has_verdict. exists verdict. exact Hverdict.
Qed.

Lemma UnknownVerdict_not_MissingField (shown : string) :
  UnknownVerdict shown <> MissingField.
Proof.
  unfold UnknownVerdict, MissingField. intros H.
  apply (f_equal (fun e => match exc_arg e with
                            | VStr s => String.substring 4 2 s
                            | _ => EmptyString
                            end)) in H.
  discriminate H.
Qed.

(** C10. A record that has a [homework_name] and no [status] makes
    [parse_status] raise the unknown-status [KeyError], with [None] as the
    value shown, and not the missing-name [KeyError]; on any record, the
    missing-name [KeyError] is raised exactly when the name key is absent. *)
Theorem parse_status_without_status (kvs : list (string * value)) (name : value) :
  dict_get "homework_name" kvs = Some name ->
  dict_get "status" kvs = None ->
  result (parse_status (VDict kvs)) = inl (UnknownVerdict "None")
  /\ result (parse_status (VDict kvs)) <> inl MissingField
  /\ (forall record,
        result (parse_status (VDict record)) = inl MissingField
        <-> dict_get "homework_name" record = None).
Proof.
  intros Hname Hstatus.
  assert (Hres : result (parse_status (VDict kvs)) = inl (UnknownVerdict "None")).
  { rewrite parse_status_record, Hname. unfold status_of. rewrite Hstatus. reflexivity. }
  split; [exact Hres |]. split.
  - rewrite Hres. intros H. apply raised_inj in H.
    exact (UnknownVerdict_not_MissingField _ H).
  - intros record. rewrite parse_status_record.
    destruct (dict_get "homework_name" record) as [name' |]; [| tauto].
    split; [| discriminate].
    destruct (hashable (status_of record)).
    + destruct (verdict_of (status_of record)); [discriminate |].
      intros H. apply raised_inj in H. exfalso.
      exact (UnknownVerdict_not_MissingField _ H).
    + discriminate.
Qed.

(** *** The loop *)

(** Runs a block of [main] down to the functions it calls. *)
Ltac run_prog :=
  cbv beta iota zeta delta
    [bind ret Monad_prog Monad_io io_ret io_bind prog_bind prog_ret lift load
     set_current_timestamp set_last_message prog_try_except prog_finally
     fst snd result trace raise emit logging time_sleep py_get].

(** Runs the body of a function down to the values it inspects. *)
Ltac run_io :=
  cbv beta iota zeta delta
    [bind ret Monad_io io_ret io_bind try_except fst snd result trace raise emit
     logging py_get py_in in_HOMEWORK_VERDICTS HOMEWORK_VERDICTS_getitem
     bot_send_message requests_get_call response_json
     attempted delivered requests errors_logged flat_map app
     derives_from_Exception exc_cls exc negb].

(** Case analysis on an innermost value that a [match] is waiting for. *)
Ltac break_match :=
  match goal with
  | |- context [match ?x with _ => _ end] =>
      lazymatch x with
      | context [match _ with _ => _ end] => fail
      | _ => destruct x
      end
  end; run_io.

(** All the paths through a function; each one is then closed by computation. *)
Ltac stage_cases :=
  run_io; repeat break_match;
  repeat split; try reflexivity;
  try (intros e H; try discriminate H; apply raised_inj in H; subst e; reflexivity).

Lemma get_api_answer_quiet (w : world) (cursor : value) :
  quiet (get_api_answer w cursor).
Proof. unfold quiet, get_api_answer. stage_cases. Qed.

Lemma check_response_quiet (response : value) :
  quiet (check_response response) /\ offline (check_response response).
Proof.
  unfold quiet, offline, check_response.
  destruct response; stage_cases.
Qed.

Lemma parse_status_quiet (homework : value) :
  quiet (parse_status homework) /\ offline (parse_status homework).
Proof.
  unfold quiet, offline, parse_status.
  destruct homework; stage_cases.
Qed.

Lemma attempted_app (t1 t2 : list event) :
  attempted (t1 ++ t2) = (attempted t1 ++ attempted t2)%list.
Proof. apply flat_map_app. Qed.

Lemma delivered_app (t1 t2 : list event) :
  delivered (t1 ++ t2) = (delivered t1 ++ delivered t2)%list.
Proof. apply flat_map_app. Qed.

Lemma requests_app (t1 t2 : list event) :
  requests (t1 ++ t2) = (requests t1 ++ requests t2)%list.
Proof. apply flat_map_app. Qed.

Lemma nothing_attempted_nothing_delivered (t : list event) :
  attempted t = [] -> delivered t = [].
Proof.
  induction t as [| ev t IH]; [reflexivity |].
  destruct ev as [lvl m | v | m r | n]; cbn; try exact IH.
  discriminate.
Qed.

Lemma main_message_unfold (w : world) (st : state) :
  main_message w st =
    let fetch := get_api_answer w (current_timestamp st) in
    match result fetch with
    | inl e => (st, (trace fetch, inl e))
    | inr (VDict kvs) =>
        let st' :=
          State (match dict_get "current_date" kvs with Some v => v | None => VNone end)
                (last_message st) in
        let check := check_response (VDict kvs) in
        match result check with
        | inl e => (st', ((trace fetch ++ trace check)%list, inl e))
        | inr [] => (st', ((trace fetch ++ trace check)%list, inr "Статус не изменился"))
        | inr (homework :: _) =>
            let parse := parse_status homework in
            (st', ((trace fetch ++ trace check ++ trace parse)%list, result parse))
        end
    | inr other =>
        (st, (trace fetch,
              inl (exc AttributeError
                     ("'" ++ type_name other ++ "' object has no attribute 'get'"))))
    end.
Proof.
  unfold main_message. run_prog.
  destruct (get_api_answer w (current_timestamp st)) as [t1 [e | response]];
    [reflexivity |].
  destruct response as [| b | n | x | s | xs | kvs];
    try (rewrite ?app_nil_r; reflexivity).
  destruct (check_response (VDict kvs)) as [t2 [e | [| homework rest]]];
    rewrite ?app_nil_r; reflexivity.
Qed.

(** The message stage sends nothing, raises only what the handler catches,
    makes the one request of the fetch, and leaves [last_message] alone. *)
Lemma main_message_stage (w : world) (st : state) :
  quiet (snd (main_message w st))
  /\ requests (trace (snd (main_message w st))) =
       [if truthy (current_timestamp st) then current_timestamp st
        else VInt (time_time w)]
  /\ last_message (fst (main_message w st)) = last_message st.
Proof.
  rewrite main_message_unfold. cbv zeta. unfold quiet.
  pose proof (get_api_answer_quiet w (current_timestamp st)) as [Hsend Hexc].
  pose proof (get_api_answer_requests w (current_timestamp st)) as Hreq.
  destruct (get_api_answer w (current_timestamp st)) as [t1 [e | response]];
    cbn [result trace fst snd] in *.
  - repeat split; try assumption; auto.
    intros e' H'. apply raised_inj in H'. subst e'. apply Hexc. reflexivity.
  - destruct response as [| b | n | x | s | xs | kvs];
      try (cbn [result trace fst snd last_message];
           repeat split; try assumption; auto;
           intros e H; apply raised_inj in H; subst e; reflexivity).
    pose proof (check_response_quiet (VDict kvs)) as [[Hsend2 Hexc2] Hreq2].
    unfold offline in Hreq2.
    destruct (check_response (VDict kvs)) as [t2 [e | [| homework rest]]];
      cbn [result trace fst snd last_message] in *.
    + rewrite attempted_app, requests_app, Hsend, Hsend2, Hreq, Hreq2.
      repeat split; try assumption; auto.
      intros e' H'. apply raised_inj in H'. subst e'. apply Hexc2. reflexivity.
    + rewrite attempted_app, requests_app, Hsend, Hsend2, Hreq, Hreq2.
      repeat split; try assumption; auto. discriminate.
    + pose proof (parse_status_quiet homework) as [[Hsend3 Hexc3] Hreq3].
      unfold offline in Hreq3.
      rewrite !attempted_app, !requests_app, Hsend, Hsend2, Hsend3, Hreq, Hreq2, Hreq3.
      repeat split; try assumption; auto.
Qed.

Lemma send_message_outline (bot : tg_result) (message : string) :
  send_message bot message =
    (send_events bot message,
     match bot with
     | Delivered => inr tt
     | TgError err => inl (send_failed err)
     end).
Proof. destruct bot; reflexivity. Qed.

Lemma main_try_outline (w : world) (st : state) :
  main_try w st =
    let msg := main_message w st in
    match result (snd msg) with
    | inl e => (fst msg, (trace (snd msg), inl e))
    | inr m =>
        if m =? last_message st then (fst msg, (trace (snd msg), inr tt))
        else
          match tg_status w with
          | Delivered =>
              (State (current_timestamp (fst msg)) m,
               ((trace (snd msg) ++ send_events Delivered m
                 ++ [Log INFO ("Получен новый статус домашней работы:" ++ m)])%list,
                inr tt))
          | TgError err =>
              (fst msg,
               ((trace (snd msg) ++ send_events (TgError err) m)%list,
                inl (send_failed err)))
          end
    end.
Proof.
  pose proof (main_message_stage w st) as [_ [_ Hlast]].
  unfold main_try, main_notify. run_prog.
  destruct (main_message w st) as [st1 [t [e | m]]];
    cbn [fst snd] in *; [reflexivity |].
  rewrite Hlast. destruct (m =? last_message st).
  - cbn [negb]. rewrite app_nil_r. reflexivity.
  - cbn [negb]. rewrite !send_message_outline.
    destruct (tg_status w); reflexivity.
Qed.

Lemma main_cycle_outline (w : world) (st : state) :
  main_cycle w st =
    let tried := main_try w st in
    match result (snd tried) with
    | inr _ =>
        (fst tried, ((trace (snd tried) ++ [Sleep RETRY_PERIOD])%list, inr tt))
    | inl e =>
        if derives_from_Exception (exc_cls e) then
          (fst tried,
           ((trace (snd tried)
             ++ Log ERROR (failure_text e)
                :: send_events (tg_failure w) (failure_text e)
             ++ [Sleep RETRY_PERIOD])%list,
            match tg_failure w with
            | Delivered => inr tt
            | TgError err => inl (send_failed err)
            end))
        else
          (fst tried, ((trace (snd tried) ++ [Sleep RETRY_PERIOD])%list, inl e))
    end.
Proof.
  unfold main_cycle, main_except. run_prog.
  destruct (main_try w st) as [st1 [t [e | []]]]; cbn [fst snd].
  - destruct (derives_from_Exception (exc_cls e)); [| reflexivity].
    rewrite !send_message_outline. cbn [fst snd].
    rewrite <- app_assoc. destruct (tg_failure w); reflexivity.
  - reflexivity.
Qed.

Lemma failure_text_is_failure_text (e : exn) :
  is_failure_text (failure_text e) = true.
Proof. reflexivity. Qed.

Lemma parse_status_text (homework : value) (m : string) :
  result (parse_status homework) = inr m ->
  is_failure_text m = false /\ m <> "".
Proof.
  unfold parse_status.
  destruct homework; run_io; repeat break_match;
    intros H; try discriminate H;
    apply returned_inj in H; subst m; (split; [reflexivity | discriminate]).
Qed.

(** What the message stage renders is never empty and never reads as a
    failure report. *)
Lemma main_message_text (w : world) (st : state) (m : string) :
  result (snd (main_message w st)) = inr m ->
  is_failure_text m = false /\ m <> "".
Proof.
  rewrite main_message_unfold. cbv zeta.
  destruct (result (get_api_answer w (current_timestamp st))) as [e | response];
    [discriminate |].
  destruct response as [| b | n | x | s | xs | kvs]; try discriminate.
  destruct (result (check_response (VDict kvs))) as [e | [| homework rest]];
    cbn [snd result].
  - discriminate.
  - intros H. apply returned_inj in H. subst m. split; [reflexivity | discriminate].
  - apply parse_status_text.
Qed.

Lemma main_try_cursor (w : world) (st : state) :
  current_timestamp (fst (main_try w st)) =
    current_timestamp (fst (main_message w st))
  /\ requests (trace (snd (main_try w st))) =
       requests (trace (snd (main_message w st))).
Proof.
  rewrite main_try_outline. cbv zeta.
  destruct (result (snd (main_message w st))) as [e | m]; [split; reflexivity |].
  destruct (m =? last_message st); [split; reflexivity |].
  destruct (tg_status w); cbn [fst snd trace current_timestamp];
    rewrite requests_app; cbn; rewrite app_nil_r; split; reflexivity.
Qed.

Lemma main_cycle_cursor (w : world) (st : state) :
  current_timestamp (fst (main_cycle w st)) =
    current_timestamp (fst (main_message w st))
  /\ requests (trace (snd (main_cycle w st))) =
       requests (trace (snd (main_message w st))).
Proof.
  pose proof (main_try_cursor w st) as [Hcur Hreq].
  rewrite main_cycle_outline. cbv zeta.
  destruct (result (snd (main_try w st))) as [e | u].
  - destruct (derives_from_Exception (exc_cls e)); cbn [fst snd trace];
      rewrite requests_app, Hreq; (split; [exact Hcur |]).
    + destruct (tg_failure w); cbn; apply app_nil_r.
    + cbn. apply app_nil_r.
  - cbn [fst snd trace]. rewrite requests_app, Hreq. split; [exact Hcur |].
    cbn. apply app_nil_r.
Qed.

(** C1, as amended.  In every cycle the cursor is replaced as soon as the
    fetch returns a mapping, before validation: it becomes what the mapping
    holds under [current_date] ([None] when the key is absent), whatever
    validation, extraction and the sends do afterwards.  It is left unchanged
    exactly when the fetch raises or returns something that is not a
    mapping.  The one request of the cycle carries the cursor the cycle
    started with (the clock when that cursor is falsy), so a cycle that
    follows an unchanged cursor asks from the same point. *)
Theorem cursor_replaced_after_fetch (w : world) (st : state) :
  current_timestamp (fst (main_cycle w st)) =
    match result (get_api_answer w (current_timestamp st)) with
    | inr (VDict kvs) =>
        match dict_get "current_date" kvs with Some v => v | None => VNone end
    | _ => current_timestamp st
    end
  /\ requests (trace (snd (main_cycle w st))) =
       [if truthy (current_timestamp st) then current_timestamp st
        else VInt (time_time w)].
Proof.
  pose proof (main_cycle_cursor w st) as [Hcur Hreq].
  pose proof (main_message_stage w st) as [_ [Hone _]].
  rewrite Hcur, Hreq, Hone. split; [| reflexivity].
  rewrite main_message_unfold. cbv zeta.
  destruct (result (get_api_answer w (current_timestamp st))) as [e | response];
    [reflexivity |].
  destruct response as [| b | n | x | s | xs | kvs]; try reflexivity.
  destruct (result (check_response (VDict kvs))) as [e | [| homework rest]];
    reflexivity.
Qed.

Lemma main_loop_cons (w : world) (ws : list world) (st : state) :
  main_loop (w :: ws) st =
    let c := main_cycle w st in
    match result (snd c) with
    | inl e => (fst c, (trace (snd c), inl e))
    | inr _ =>
        let rest := main_loop ws (fst c) in
        (fst rest, ((trace (snd c) ++ trace (snd rest))%list, result (snd rest)))
    end.
Proof. reflexivity. Qed.

(** C2, as amended.  When the fetch, the validation or the extraction of a
    cycle raises, the cycle hands exactly one text to [bot.send_message], the
    failure report of that error.  If that send is delivered, the cycle ends
    normally and the loop goes on with the next one.  If that send fails, the
    failure is logged and raised again by [send_message]; nothing catches it,
    so after the sleep it leaves the loop: no later cycle runs. *)
Theorem stage_error_reported_once (w : world) (st : state) (e : exn) :
  result (snd (main_message w st)) = inl e ->
  let c := main_cycle w st in
  attempted (trace (snd c)) = [failure_text e]
  /\ last (trace (snd c)) (Sleep 0) = Sleep RETRY_PERIOD
  /\ match tg_failure w with
     | Delivered =>
         result (snd c) = inr tt
         /\ forall ws,
              snd (main_loop (w :: ws) st) =
                let rest := main_loop ws (fst c) in
                ((trace (snd c) ++ trace (snd rest))%list, result (snd rest))
     | TgError err =>
         result (snd c) = inl (send_failed err)
         /\ In ("Ошибка отправки сообщения в Telegram - " ++ err)
               (errors_logged (trace (snd c)))
         /\ forall ws,
              snd (main_loop (w :: ws) st) = (trace (snd c), inl (send_failed err))
     end.
Proof.
  intros Hraise c.
  pose proof (main_message_stage w st) as [[Hquiet Hexc] _].
  specialize (Hexc e Hraise).
  assert (Hcycle : main_cycle w st =
               (fst (main_message w st),
                ((trace (snd (main_message w st))
                  ++ Log ERROR (failure_text e)
                     :: send_events (tg_failure w) (failure_text e)
                  ++ [Sleep RETRY_PERIOD])%list,
                 match tg_failure w with
                 | Delivered => inr tt
                 | TgError err => inl (send_failed err)
                 end))).
  { rewrite main_cycle_outline, main_try_outline. cbv zeta.
    rewrite Hraise. cbn [fst snd result trace]. rewrite Hexc. reflexivity. }
  assert (Hc : c = main_cycle w st) by reflexivity.
  rewrite Hcycle in Hc.
  clearbody c. subst c. cbn [fst snd trace result].
  destruct (tg_failure w) as [| err].
  - split; [rewrite attempted_app, Hquiet; reflexivity |].
    split; [rewrite app_comm_cons, !app_assoc; apply last_last |].
    split; [reflexivity |].
    intros ws. rewrite main_loop_cons, Hcycle. reflexivity.
  - split; [rewrite attempted_app, Hquiet; reflexivity |].
    split; [rewrite app_comm_cons, !app_assoc; apply last_last |].
    split; [reflexivity |]. split.
    + unfold errors_logged. rewrite flat_map_app. apply in_or_app. right.
      cbn. right. left. reflexivity.
    + intros ws. rewrite main_loop_cons, Hcycle. reflexivity.
Qed.

(** C8, as amended.  When the fetch and the validation of a cycle succeed
    and the validated list is empty, the message of the cycle is the literal
    of line 161, and the message stage consists of the fetch and the
    validation alone: [parse_status] is not called. *)
Theorem empty_batch_message (w : world) (st : state) (response : value) :
  result (get_api_answer w (current_timestamp st)) = inr response ->
  result (check_response response) = inr [] ->
  snd (main_message w st) =
    ((trace (get_api_answer w (current_timestamp st))
      ++ trace (check_response response))%list,
     inr "Статус не изменился").
Proof.
  intros Hfetch Hcheck. rewrite main_message_unfold. cbv zeta. rewrite Hfetch.
  destruct response as [| b | n | x | s | xs | kvs];
    try (rewrite check_response_result in Hcheck; discriminate Hcheck).
  rewrite Hcheck. reflexivity.
Qed.

(** What a cycle does once its message stage has gone through. *)
Lemma main_cycle_after_message (w : world) (st : state) :
  main_cycle w st =
    let msg := main_message w st in
    let report e :=
      (fst msg,
       ((trace (snd msg)
         ++ Log ERROR (failure_text e)
            :: send_events (tg_failure w) (failure_text e)
         ++ [Sleep RETRY_PERIOD])%list,
        match tg_failure w with
        | Delivered => inr tt
        | TgError err => inl (send_failed err)
        end)) in
    match result (snd msg) with
    | inl e =>
        if derives_from_Exception (exc_cls e) then report e
        else (fst msg, ((trace (snd msg) ++ [Sleep RETRY_PERIOD])%list, inl e))
    | inr m =>
        if m =? last_message st then
          (fst msg, ((trace (snd msg) ++ [Sleep RETRY_PERIOD])%list, inr tt))
        else
          match tg_status w with
          | Delivered =>
              (State (current_timestamp (fst msg)) m,
               ((trace (snd msg) ++ send_events Delivered m
                 ++ [Log INFO ("Получен новый статус домашней работы:" ++ m);
                     Sleep RETRY_PERIOD])%list,
                inr tt))
          | TgError err =>
              (fst msg,
               ((trace (snd msg) ++ send_events (TgError err) m
                 ++ Log ERROR (failure_text (send_failed err))
                    :: send_events (tg_failure w) (failure_text (send_failed err))
                 ++ [Sleep RETRY_PERIOD])%list,
                match tg_failure w with
                | Delivered => inr tt
                | TgError err' => inl (send_failed err')
                end))
          end
    end.
Proof.
  rewrite main_cycle_outline, main_try_outline. cbv zeta.
  destruct (result (snd (main_message w st))) as [e | m];
    cbn [fst snd result trace].
  - destruct (derives_from_Exception (exc_cls e)); reflexivity.
  - destruct (m =? last_message st); cbn [fst snd result trace]; [reflexivity |].
    destruct (tg_status w) as [| err]; cbn [fst snd result trace].
    + rewrite <- !app_assoc. reflexivity.
    + cbn [send_failed exc exc_cls derives_from_Exception].
      rewrite <- !app_assoc. reflexivity.
Qed.

(** What a cycle delivers and what it leaves in [last_message]: nothing new,
    or a failure report with [last_message] as it was, or the status message
    with [last_message] set to it. *)
Lemma main_cycle_delivery (w : world) (st : state) :
  let c := main_cycle w st in
  (last_message (fst c) = last_message st
   /\ (delivered (trace (snd c)) = []
       \/ exists m, delivered (trace (snd c)) = [m] /\ is_failure_text m = true))
  \/ (exists m,
        delivered (trace (snd c)) = [m] /\ is_failure_text m = false
        /\ last_message (fst c) = m /\ result (snd c) = inr tt).
Proof.
  cbv zeta. rewrite main_cycle_after_message. cbv zeta.
  pose proof (main_message_stage w st) as [[Hquiet _] [_ Hlast]].
  apply nothing_attempted_nothing_delivered in Hquiet.
  pose proof (main_message_text w st) as Htext.
  destruct (result (snd (main_message w st))) as [e | m].
  - left.
    destruct (derives_from_Exception (exc_cls e)); cbn [fst snd trace];
      rewrite delivered_app, Hquiet; (split; [exact Hlast |]).
    + destruct (tg_failure w); [right | left; reflexivity].
      exists (failure_text e). split; reflexivity.
    + left. reflexivity.
  - destruct (Htext m eq_refl) as [Hstatus _].
    destruct (m =? last_message st).
    + left. cbn [fst snd trace]. rewrite delivered_app, Hquiet.
      split; [exact Hlast | left; reflexivity].
    + destruct (tg_status w) as [| err]; cbn [fst snd trace];
        rewrite delivered_app, Hquiet.
      * right. exists m.
        split; [reflexivity | split; [exact Hstatus | split; reflexivity]].
      * left. split; [exact Hlast |].
        destruct (tg_failure w); [right | left; reflexivity].
        eexists. split; reflexivity.
Qed.

Lemma last_cons_default {A : Type} (a d : A) (l : list A) :
  last (a :: l) d = last l a.
Proof.
  revert a d. induction l as [| b l IH]; intros a d; [reflexivity |].
  change (last (a :: b :: l) d) with (last (b :: l) d).
  rewrite (IH b d), (IH b a). reflexivity.
Qed.

Lemma last_app_default {A : Type} (l1 l2 : list A) (d : A) :
  last (l1 ++ l2) d = last l2 (last l1 d).
Proof.
  revert d. induction l1 as [| a l1 IH]; intros d; [reflexivity |].
  rewrite <- app_comm_cons, !last_cons_default. apply IH.
Qed.

(** C4, as amended.  Along every run of the loop, [last_message] is the text
    of the latest delivered notification that is not a failure report, or
    what it was at the start (the empty text at line 152) when there is none;
    a cycle changes it only by delivering a status message, to that message;
    a failure report is sent without touching it. *)
Theorem last_message_is_latest_status (ws : list world) (st : state) :
  let run := main_loop ws st in
  last_message (fst run) = last (statuses_delivered (trace (snd run))) (last_message st)
  /\ forall w st0,
       let c := main_cycle w st0 in
       last_message (fst c) = last_message st0
       \/ (delivered (trace (snd c)) = [last_message (fst c)]
           /\ is_failure_text (last_message (fst c)) = false).
Proof.
  cbv zeta. split.
  - revert st. induction ws as [| w ws IH]; intros st; [reflexivity |].
    rewrite main_loop_cons. cbv zeta.
    pose proof (main_cycle_delivery w st) as Hcycle. cbv zeta in Hcycle.
    assert (Hstep : last (statuses_delivered (trace (snd (main_cycle w st))))
                      (last_message st)
                    = last_message (fst (main_cycle w st))).
    { unfold statuses_delivered.
      destruct Hcycle as [[Hlast [Hnone | [m [Hone Hfail]]]] | [m [Hone [Hstatus [Hlast _]]]]].
      - rewrite Hnone, Hlast. reflexivity.
      - rewrite Hone, Hlast. cbn [filter]. rewrite Hfail. reflexivity.
      - rewrite Hone, Hlast. cbn [filter]. rewrite Hstatus. reflexivity. }
    destruct (result (snd (main_cycle w st))) as [e | u];
      cbn [fst snd trace].
    + symmetry. exact Hstep.
    + rewrite IH. unfold statuses_delivered.
      rewrite delivered_app, filter_app, last_app_default.
      unfold statuses_delivered in Hstep. rewrite Hstep. reflexivity.
  - intros w st0.
    pose proof (main_cycle_delivery w st0) as Hcycle. cbv zeta in Hcycle.
    destruct Hcycle as [[Hlast _] | [m [Hone [Hstatus [Hlast _]]]]].
    + left. exact Hlast.
    + right. rewrite Hlast. split; assumption.
Qed.

Lemma successful_cycle (w : world) (st : state) (m : string) :
  result (snd (main_message w st)) = inr m ->
  tg_status w = Delivered ->
  attempted (trace (snd (main_cycle w st))) =
    (if m =? last_message st then [] else [m])
  /\ delivered (trace (snd (main_cycle w st))) =
       (if m =? last_message st then [] else [m])
  /\ last_message (fst (main_cycle w st)) = m
  /\ result (snd (main_cycle w st)) = inr tt.
Proof.
  intros Hmsg Hbot.
  pose proof (main_message_stage w st) as [[Hquiet _] [_ Hlast]].
  pose proof (nothing_attempted_nothing_delivered _ Hquiet) as Hnone.
  rewrite main_cycle_after_message. cbv zeta. rewrite Hmsg, Hbot.
  destruct (m =? last_message st) eqn:Heq; cbn [fst snd trace result last_message];
    rewrite attempted_app, delivered_app, Hquiet, Hnone.
  - apply String.eqb_eq in Heq. repeat split. congruence.
  - repeat split.
Qed.

Lemma main_loop_successful (ws : list world) (ms : list string) :
  Forall2 successful ws ms ->
  forall st,
    attempted (trace (snd (main_loop ws st))) = skip_repeats (last_message st) ms
    /\ delivered (trace (snd (main_loop ws st))) = skip_repeats (last_message st) ms
    /\ result (snd (main_loop ws st)) = inr tt.
Proof.
  induction 1 as [| w m ws ms [Hmsg Hbot] _ IH]; intros st; [repeat split |].
  destruct (successful_cycle w st m (Hmsg st) Hbot) as [Hatt [Hdel [Hlast Hres]]].
  rewrite main_loop_cons. cbv zeta. rewrite Hres. cbn [fst snd trace result].
  destruct (IH (fst (main_cycle w st))) as [IHatt [IHdel IHres]].
  rewrite attempted_app, delivered_app, Hatt, Hdel, IHatt, IHdel, Hlast.
  cbn [skip_repeats].
  destruct (m =? last_message st) eqn:Heq.
  - apply String.eqb_eq in Heq. subst m. repeat split. exact IHres.
  - repeat split. exact IHres.
Qed.

(** C3. In a cycle that renders a message and whose send Telegram accepts,
    the message is sent exactly when it differs, as a string, from
    [last_message], which then becomes that message.  So when the first four
    cycles of the loop render m1, m1, m2, m1 with m1 and m2 different, three
    sends happen: m1, m2, m1; the second m1 is skipped, the last one is sent
    again. *)
Theorem dedup_against_last_message :
  (forall w st m,
      result (snd (main_message w st)) = inr m ->
      tg_status w = Delivered ->
      attempted (trace (snd (main_cycle w st))) =
        (if m =? last_message st then [] else [m])
      /\ delivered (trace (snd (main_cycle w st))) =
           (if m =? last_message st then [] else [m])
      /\ last_message (fst (main_cycle w st)) = m)
  /\ (forall w1 w2 w3 w4 m1 m2,
        m1 <> m2 ->
        successful w1 m1 -> successful w2 m1 -> successful w3 m2 -> successful w4 m1 ->
        let run := main_loop [w1; w2; w3; w4] loop_start in
        attempted (trace (snd run)) = [m1; m2; m1]
        /\ delivered (trace (snd run)) = [m1; m2; m1]
        /\ result (snd run) = inr tt).
Proof.
  split.
  - intros w st m Hmsg Hbot.
    destruct (successful_cycle w st m Hmsg Hbot) as [Hatt [Hdel [Hlast _]]].
    repeat split; assumption.
  - intros w1 w2 w3 w4 m1 m2 Hdiff H1 H2 H3 H4. cbv zeta.
    assert (Hnonempty : m1 <> "").
    { destruct H1 as [Hmsg _]. apply (main_message_text w1 loop_start m1 (Hmsg _)). }
    assert (Hskip : skip_repeats "" [m1; m1; m2; m1] = [m1; m2; m1]).
    { cbn [skip_repeats].
      apply String.eqb_neq in Hnonempty. rewrite Hnonempty.
      rewrite String.eqb_refl.
      assert (Hback : (m2 =? m1) = false) by (apply String.eqb_neq; congruence).
      rewrite Hback.
      apply String.eqb_neq in Hdiff. rewrite Hdiff. reflexivity. }
    rewrite <- Hskip.
    apply (main_loop_successful [w1; w2; w3; w4] [m1; m1; m2; m1]).
    repeat (apply Forall2_cons; [assumption |]). apply Forall2_nil.
Qed.

Lemma main_try_raises (w : world) (st : state) (e : exn) :
  result (snd (main_try w st)) = inl e ->
  derives_from_Exception (exc_cls e) = true
  /\ delivered (trace (snd (main_try w st))) = [].
Proof.
  pose proof (main_message_stage w st) as [[Hquiet Hexc] _].
  apply nothing_attempted_nothing_delivered in Hquiet.
  rewrite main_try_outline. cbv zeta.
  destruct (result (snd (main_message w st))) as [e' | m];
    cbn [fst snd result trace].
  - intros H. apply raised_inj in H. subst e'. split; [apply Hexc; reflexivity | exact Hquiet].
  - destruct (m =? last_message st); cbn [fst snd result trace]; [discriminate |].
    destruct (tg_status w) as [| err]; cbn [fst snd result trace]; [discriminate |].
    intros H. apply raised_inj in H. subst e.
    split; [reflexivity |]. rewrite delivered_app, Hquiet. reflexivity.
Qed.

Lemma failing_cycle (w : world) (st : state) (e : exn) :
  result (snd (main_try w st)) = inl e ->
  In (Send (failure_text e) (tg_failure w))
     (trace (snd (main_cycle w st)))
  /\ (tg_failure w = Delivered ->
      delivered (trace (snd (main_cycle w st))) = [failure_text e]
      /\ result (snd (main_cycle w st)) = inr tt).
Proof.
  intros Hraise. destruct (main_try_raises w st e Hraise) as [Hexc Hnone].
  rewrite main_cycle_outline. cbv zeta. rewrite Hraise, Hexc.
  cbn [fst snd trace result]. split.
  - apply in_or_app. right. right. right. left. reflexivity.
  - intros ->. rewrite delivered_app, Hnone. split; reflexivity.
Qed.

(** C9. A cycle that ends in the handler hands its failure report to
    [bot.send_message] whatever [last_message] holds; and when the same error
    comes back cycle after cycle, the same report is delivered once in each
    of those cycles. *)
Theorem failure_report_every_cycle :
  (forall w st e,
      result (snd (main_try w st)) = inl e ->
      In (Send (failure_text e) (tg_failure w))
         (trace (snd (main_cycle w st))))
  /\ (forall ws st e,
        recurring e ws st ->
        delivered (trace (snd (main_loop ws st))) =
          repeat (failure_text e) (length ws)
        /\ result (snd (main_loop ws st)) = inr tt).
Proof.
  split.
  - intros w st e Hraise. apply (failing_cycle w st e Hraise).
  - induction ws as [| w ws IH]; intros st e Hrec; [split; reflexivity |].
    destruct Hrec as [Hraise [Hbot Hrest]].
    destruct (failing_cycle w st e Hraise) as [_ Hcycle].
    destruct (Hcycle Hbot) as [Hdel Hres].
    destruct (IH _ _ Hrest) as [IHdel IHres].
    rewrite main_loop_cons. cbv zeta. rewrite Hres. cbn [fst snd trace result].
    rewrite delivered_app, Hdel, IHdel. split; [reflexivity | exact IHres].
Qed.

#[local] Abbreviation main := (main repr_str).

(** *** Start-up *)

Lemma is_set_false (token : option string) :
  is_set token = false <-> unset token.
Proof.
  unfold is_set, unset. destruct token as [s |].
  - destruct (s =? "") eqn:E; cbn.
    + apply String.eqb_eq in E. subst s. split; [right; reflexivity | reflexivity].
    + apply String.eqb_neq in E. split; [discriminate |].
      intros [H | H]; [discriminate | congruence].
  - split; [left; reflexivity | reflexivity].
Qed.

Lemma check_tokens_result (env : tokens) :
  check_tokens env =
    ([Log INFO "Проверяем доступность переменных окружения"],
     inr (is_set (PRACTICUM_TOKEN env) && is_set (TELEGRAM_TOKEN env)
          && is_set (TELEGRAM_CHAT_ID env))).
Proof.
  unfold check_tokens. cbn. rewrite andb_true_r, andb_assoc. reflexivity.
Qed.

(** X1. When one of the three tokens is missing from the environment or is
    set to the empty text, [main] logs a critical line and raises
    [SystemExit]: it hands nothing to Telegram and makes no request, whatever
    would have come next. *)
Theorem main_exits_without_tokens (env : tokens) (tg_start : tg_result)
    (ws : list world) :
  unset (PRACTICUM_TOKEN env) \/ unset (TELEGRAM_TOKEN env)
  \/ unset (TELEGRAM_CHAT_ID env) ->
  result (main env tg_start ws) =
    inl (exc SystemExit "Отсутствуют переменные окружения. Бот прекращает работу!")
  /\ attempted (trace (main env tg_start ws)) = []
  /\ requests (trace (main env tg_start ws)) = []
  /\ In (Log CRITICAL "Отсутствуют переменные окружения. Бот прекращает работу!")
        (trace (main env tg_start ws)).
Proof.
  intros Hunset.
  assert (Hcheck : is_set (PRACTICUM_TOKEN env) && is_set (TELEGRAM_TOKEN env)
                   && is_set (TELEGRAM_CHAT_ID env) = false).
  { destruct Hunset as [H | [H | H]]; apply is_set_false in H; rewrite H;
      rewrite ?andb_false_r; reflexivity. }
  unfold main. rewrite check_tokens_result, Hcheck.
  repeat split. cbn. right. left. reflexivity.
Qed.




(** *** The functions, one by one *)

(** X4. Every call of [send_message] hands its text to Telegram exactly
    once.  It returns when Telegram accepts; when Telegram refuses, it logs
    the refusal as an error and raises a plain [Exception] whose text carries
    the refusal; it raises nothing else. *)
Theorem send_message_one_attempt (bot : tg_result) (message : string) :
  attempted (trace (send_message bot message)) = [message]
  /\ (result (send_message bot message) = inr tt <-> bot = Delivered)
  /\ (forall err, bot = TgError err ->
        result (send_message bot message) =
          inl (exc Exception ("Ошибка при отправке сообщения-статус: " ++ err))
        /\ errors_logged (trace (send_message bot message)) =
             ["Ошибка отправки сообщения в Telegram - " ++ err]
        /\ delivered (trace (send_message bot message)) = [])
  /\ (forall e, result (send_message bot message) = inl e -> exc_cls e = Exception).
Proof.
  rewrite send_message_outline. destruct bot as [| err0]; cbn [result trace fst snd].
  - repeat split; try discriminate.
  - split; [reflexivity |]. split; [split; discriminate |]. split.
    + intros err H. injection H as <-. repeat split.
    + intros e H. apply raised_inj in H. subst e. reflexivity.
Qed.

(** X5. The order of the checks of [check_response]: anything that is not a
    mapping raises [TypeError]; a mapping that lacks [homeworks] or
    [current_date] raises [NonCorrectResponseFromAPI], with a text that names
    [homeworks] whichever key is missing and whatever [homeworks] holds; only
    a mapping with both keys is asked whether [homeworks] is a list, and
    raises [TypeError] showing the value when it is not. *)
Theorem check_response_error_by_defect (response : value) :
  ((forall kvs, response <> VDict kvs) ->
   result (check_response response) =
     inl (exc TypeError "Полученный ответ API не является dict"))
  /\ (forall kvs,
        response = VDict kvs ->
        dict_get "homeworks" kvs = None \/ dict_get "current_date" kvs = None ->
        result (check_response response) =
          inl (exc NonCorrectResponseFromAPI "Нет ключа homeworks в ответе API"))
  /\ (forall kvs other date,
        response = VDict kvs ->
        dict_get "homeworks" kvs = Some other ->
        dict_get "current_date" kvs = Some date ->
        (forall items, other <> VList items) ->
        result (check_response response) =
          inl (exc TypeError
                 ("Ответ в API homeworks:" ++ py_str other ++ " не является list"))).
Proof.
  rewrite check_response_result. split; [| split].
  - intros Hnot. destruct response as [| b | n | x | s | xs | kvs]; try reflexivity.
    exfalso. apply (Hnot kvs). reflexivity.
  - intros kvs -> Hmissing. unfold dict_has.
    destruct Hmissing as [H | H]; rewrite H; rewrite ?andb_false_r; reflexivity.
  - intros kvs other date -> Hhw Hdate Hnot. unfold dict_has. rewrite Hhw, Hdate.
    cbn [andb].
    destruct other as [| b | n | x | s | xs | kvs']; try reflexivity.
    exfalso. apply (Hnot xs). reflexivity.
Qed.

(** As [run_io], for the further readings of a trace. *)
Ltac run_all :=
  cbv beta iota zeta delta
    [bind ret Monad_io io_ret io_bind try_except fst snd result trace raise emit
     logging py_get py_in in_HOMEWORK_VERDICTS HOMEWORK_VERDICTS_getitem
     bot_send_message requests_get_call response_json
     attempted delivered requests errors_logged sleeps only_logs flat_map forallb
     app andb derives_from_Exception exc_cls exc negb].

(** As [break_match], with [run_all]. *)
Ltac break_all :=
  match goal with
  | |- context [match ?x with _ => _ end] =>
      lazymatch x with
      | context [match _ with _ => _ end] => fail
      | _ => destruct x
      end
  end; run_all.

Lemma check_response_only_logs (v : value) :
  only_logs (trace (check_response v)) = true.
Proof. unfold check_response. destruct v; run_all; repeat break_all; reflexivity. Qed.

Lemma parse_status_only_logs (v : value) :
  only_logs (trace (parse_status v)) = true.
Proof. unfold parse_status. destruct v; run_all; repeat break_all; reflexivity. Qed.

(** X6. [check_response] and [parse_status] reach the outside only through
    the log: whatever they are given, they make no request, send nothing and
    do not sleep. *)
Theorem validation_and_extraction_only_log (v : value) :
  only_logs (trace (check_response v)) = true
  /\ only_logs (trace (parse_status v)) = true.
Proof. split; [apply check_response_only_logs | apply parse_status_only_logs]. Qed.

(** X7. [parse_status] renders a message only for a mapping: on any other
    item (a number, a text, a list, [None]) it raises -- a [TypeError] where
    the membership test of line 115 cannot iterate, the missing-name
    [KeyError] where that test is false, an [AttributeError] at the [get] of
    line 119 otherwise. *)
Theorem parse_status_needs_a_mapping (homework : value) :
  (forall kvs, homework <> VDict kvs) ->
  exists e,
    result (parse_status homework) = inl e
    /\ (exc_cls e = TypeError \/ e = MissingField \/ exc_cls e = AttributeError).
Proof.
  intros Hnot. unfold parse_status.
  destruct homework as [| b | n | x | s | xs | kvs]; run_all.
  7: exfalso; apply (Hnot kvs); reflexivity.
  all: repeat break_all; eexists; split; try reflexivity; auto.
Qed.

Lemma string_app_inv_head (s a b : string) : s ++ a = s ++ b -> a = b.
Proof.
  induction s as [| c s IH]; cbn; intros H; [exact H |].
  apply IH. congruence.
Qed.

Lemma verdict_of_injective (s1 s2 : value) (verdict : string) :
  verdict_of s1 = Some verdict -> verdict_of s2 = Some verdict -> s1 = s2.
Proof.
  unfold verdict_of.
  destruct s1 as [| | | | a | |]; try discriminate.
  destruct s2 as [| | | | b | |]; try discriminate.
  intros Ha Hb.
  assert (Hin_a : In a ["approved"; "reviewing"; "rejected"])
    by (apply known_status_has_verdict; eauto).
  assert (Hin_b : In b ["approved"; "reviewing"; "rejected"])
    by (apply known_status_has_verdict; eauto).
  destruct Hin_a as [<- | [<- | [<- | []]]];
    destruct Hin_b as [<- | [<- | [<- | []]]];
    try reflexivity;
    exfalso; cbn in Ha, Hb; rewrite <- Hb in Ha;
    apply (f_equal (fun o => match o with
                             | Some v => v
                             | None => EmptyString
                             end)) in Ha;
    apply String.eqb_eq in Ha; vm_compute in Ha; discriminate Ha.
Qed.

(** X8. A change of verdict is never lost in the rendering: two records with
    the same name whose statuses differ, both rendered by [parse_status], give
    different messages, so the comparison of line 162 lets the second one
    through. *)
Theorem verdict_change_changes_message (kvs1 kvs2 : list (string * value))
    (name : value) (m1 m2 : string) :
  dict_get "homework_name" kvs1 = Some name ->
  dict_get "homework_name" kvs2 = Some name ->
  status_of kvs1 <> status_of kvs2 ->
  result (parse_status (VDict kvs1)) = inr m1 ->
  result (parse_status (VDict kvs2)) = inr m2 ->
  m1 <> m2.
Proof.
  intros Hname1 Hname2 Hdiff.
  rewrite !parse_status_record, Hname1, Hname2.
  destruct (hashable (status_of kvs1)); [| discriminate].
  destruct (hashable (status_of kvs2)); [| discriminate].
  destruct (verdict_of (status_of kvs1)) as [v1 |] eqn:Hv1; [| discriminate].
  destruct (verdict_of (status_of kvs2)) as [v2 |] eqn:Hv2; [| discriminate].
  intros H1 H2 Heq. apply returned_inj in H1. apply returned_inj in H2. subst m1 m2.
  unfold status_text in Heq.
  do 5 apply string_app_inv_head in Heq. subst v2.
  apply Hdiff. exact (verdict_of_injective _ _ _ Hv1 Hv2).
Qed.

(** *** Cycles and runs *)

Lemma sleeps_app (t1 t2 : list event) :
  sleeps (t1 ++ t2) = (sleeps t1 ++ sleeps t2)%list.
Proof. apply flat_map_app. Qed.

Lemma only_logs_no_sleep (t : list event) : only_logs t = true -> sleeps t = [].
Proof.
  induction t as [| ev t IH]; [reflexivity |].
  destruct ev; cbn; try discriminate. exact IH.
Qed.

Lemma get_api_answer_no_sleep (w : world) (cursor : value) :
  sleeps (trace (get_api_answer w cursor)) = [].
Proof. unfold get_api_answer. run_all. repeat break_all; reflexivity. Qed.

Lemma main_message_no_sleep (w : world) (st : state) :
  sleeps (trace (snd (main_message w st))) = [].
Proof.
  rewrite main_message_unfold. cbv zeta.
  pose proof (get_api_answer_no_sleep w (current_timestamp st)) as Hfetch.
  destruct (result (get_api_answer w (current_timestamp st))) as [e | response];
    [exact Hfetch |].
  destruct response as [| b | n | x | s | xs | kvs]; try exact Hfetch.
  pose proof (only_logs_no_sleep _ (check_response_only_logs (VDict kvs))) as Hcheck.
  destruct (result (check_response (VDict kvs))) as [e | [| homework rest]];
    cbn [fst snd trace]; rewrite ?sleeps_app, Hfetch, ?Hcheck; try reflexivity.
  apply (only_logs_no_sleep _ (parse_status_only_logs homework)).
Qed.

(** What a cycle hands to Telegram, what it leaves in [last_message] and how
    it ends, read off the result of its message stage. *)
Lemma main_cycle_by_message (w : world) (st : state) :
  let c := main_cycle w st in
  let report e :=
    match tg_failure w with
    | Delivered => inr tt
    | TgError err => inl (send_failed err)
    end in
  match result (snd (main_message w st)) with
  | inl e =>
      attempted (trace (snd c)) = [failure_text e]
      /\ last_message (fst c) = last_message st
      /\ result (snd c) = report e
  | inr m =>
      if m =? last_message st then
        attempted (trace (snd c)) = []
        /\ last_message (fst c) = last_message st
        /\ result (snd c) = inr tt
      else
        match tg_status w with
        | Delivered =>
            attempted (trace (snd c)) = [m]
            /\ last_message (fst c) = m
            /\ result (snd c) = inr tt
        | TgError err =>
            attempted (trace (snd c)) = [m; failure_text (send_failed err)]
            /\ last_message (fst c) = last_message st
            /\ result (snd c) = report (send_failed err)
        end
  end.
Proof.
  cbv zeta. rewrite main_cycle_after_message. cbv zeta.
  pose proof (main_message_stage w st) as [[Hquiet Hexc] [_ Hlast]].
  destruct (result (snd (main_message w st))) as [e | m].
  - rewrite (Hexc e eq_refl). cbn [fst snd trace result].
    rewrite attempted_app, Hquiet.
    destruct (tg_failure w); repeat split; assumption.
  - destruct (m =? last_message st).
    + cbn [fst snd trace result]. rewrite attempted_app, Hquiet.
      repeat split; assumption.
    + destruct (tg_status w) as [| err]; cbn [fst snd trace result last_message];
        rewrite attempted_app, Hquiet.
      * repeat split.
      * destruct (tg_failure w); repeat split; assumption.
Qed.

(** X9. Only the first homework of the list is looked at: two answers whose
    lists start with the same item make the cycle hand the same texts to
    Telegram and leave the same [last_message], whatever follows the first
    item in either list. *)
Theorem only_first_homework_counts (w1 w2 : world) (st : state)
    (kvs1 kvs2 : list (string * value)) (homework : value)
    (rest1 rest2 : list value) :
  result (get_api_answer w1 (current_timestamp st)) = inr (VDict kvs1) ->
  result (get_api_answer w2 (current_timestamp st)) = inr (VDict kvs2) ->
  result (check_response (VDict kvs1)) = inr (homework :: rest1) ->
  result (check_response (VDict kvs2)) = inr (homework :: rest2) ->
  tg_status w1 = tg_status w2 ->
  tg_failure w1 = tg_failure w2 ->
  result (snd (main_message w1 st)) = result (parse_status homework)
  /\ attempted (trace (snd (main_cycle w1 st))) =
       attempted (trace (snd (main_cycle w2 st)))
  /\ last_message (fst (main_cycle w1 st)) = last_message (fst (main_cycle w2 st)).
Proof.
  intros Hfetch1 Hfetch2 Hcheck1 Hcheck2 Hstatus Hfailure.
  assert (Hmsg1 : result (snd (main_message w1 st)) = result (parse_status homework)).
  { rewrite main_message_unfold. cbv zeta. rewrite Hfetch1, Hcheck1. reflexivity. }
  assert (Hmsg2 : result (snd (main_message w2 st)) = result (parse_status homework)).
  { rewrite main_message_unfold. cbv zeta. rewrite Hfetch2, Hcheck2. reflexivity. }
  split; [exact Hmsg1 |].
  pose proof (main_cycle_by_message w1 st) as H1.
  pose proof (main_cycle_by_message w2 st) as H2.
  cbv zeta in H1, H2. rewrite Hmsg1 in H1. rewrite Hmsg2 in H2.
  rewrite <- Hstatus, <- Hfailure in H2.
  destruct (result (parse_status homework)) as [e | m].
  - destruct H1 as [-> [-> _]], H2 as [-> [-> _]]. split; reflexivity.
  - destruct (m =? last_message st).
    + destruct H1 as [-> [-> _]], H2 as [-> [-> _]]. split; reflexivity.
    + destruct (tg_status w1);
        destruct H1 as [-> [-> _]], H2 as [-> [-> _]]; split; reflexivity.
Qed.

(** X10. Every cycle sleeps exactly once, for [RETRY_PERIOD] seconds, and the
    sleep is the last thing it does: also when the [try] body raised, and
    also when the handler itself raised and the exception is about to leave
    the loop. *)
Theorem cycle_sleeps_once_at_the_end (w : world) (st : state) :
  sleeps (trace (snd (main_cycle w st))) = [RETRY_PERIOD]
  /\ last (trace (snd (main_cycle w st))) (Sleep 0) = Sleep RETRY_PERIOD.
Proof.
  rewrite main_cycle_after_message. cbv zeta.
  pose proof (main_message_no_sleep w st) as Hnone.
  destruct (result (snd (main_message w st))) as [e | m].
  - destruct (derives_from_Exception (exc_cls e)); cbn [fst snd trace].
    + destruct (tg_failure w); (split;
        [rewrite sleeps_app, Hnone; reflexivity
        | rewrite app_comm_cons, !app_assoc; apply last_last]).
    + split; [rewrite sleeps_app, Hnone; reflexivity | apply last_last].
  - destruct (m =? last_message st); cbn [fst snd trace].
    + split; [rewrite sleeps_app, Hnone; reflexivity | apply last_last].
    + destruct (tg_status w) as [| err]; cbn [fst snd trace].
      * split; [rewrite sleeps_app, Hnone; reflexivity |].
        change [Log INFO ("Получен новый статус домашней работы:" ++ m);
                Sleep RETRY_PERIOD]
          with ([Log INFO ("Получен новый статус домашней работы:" ++ m)]
                ++ [Sleep RETRY_PERIOD])%list.
        rewrite !app_assoc. apply last_last.
      * destruct (tg_failure w); (split;
          [rewrite sleeps_app, Hnone; reflexivity
          | rewrite app_comm_cons, !app_assoc; apply last_last]).
Qed.

Lemma main_cycle_attempts_at_most_two (w : world) (st : state) :
  length (attempted (trace (snd (main_cycle w st)))) <= 2.
Proof.
  pose proof (main_cycle_by_message w st) as H. cbv zeta in H.
  destruct (result (snd (main_message w st))) as [e | m].
  - destruct H as [-> _]. cbn. lia.
  - destruct (m =? last_message st).
    + destruct H as [-> _]. cbn. lia.
    + destruct (tg_status w); destruct H as [-> _]; cbn; lia.
Qed.

Lemma main_cycle_one_request (w : world) (st : state) :
  length (requests (trace (snd (main_cycle w st)))) = 1.
Proof.
  destruct (main_cycle_cursor w st) as [_ ->].
  destruct (main_message_stage w st) as [_ [-> _]]. reflexivity.
Qed.

(** X11. A run of the loop makes one request per cycle it enters and never
    more than two sends per cycle: over [n] cycles, at most [n] requests
    (exactly [n] when no exception has left the loop) and at most [2 n] texts
    handed to Telegram. *)
Theorem run_requests_and_sends_bounded (ws : list world) (st : state) :
  length (requests (trace (snd (main_loop ws st)))) <= length ws
  /\ (result (snd (main_loop ws st)) = inr tt ->
      length (requests (trace (snd (main_loop ws st)))) = length ws)
  /\ length (attempted (trace (snd (main_loop ws st)))) <= 2 * length ws.
Proof.
  revert st. induction ws as [| w ws IH]; intros st.
  - cbn. repeat split; lia.
  - rewrite main_loop_cons. cbv zeta.
    pose proof (main_cycle_one_request w st) as Hreq.
    pose proof (main_cycle_attempts_at_most_two w st) as Hatt.
    destruct (result (snd (main_cycle w st))) as [e | u]; cbn [fst snd trace result].
    + cbn [length]. repeat split; try lia. discriminate.
    + destruct (IH (fst (main_cycle w st))) as [IHle [IHeq IHatt]].
      rewrite requests_app, attempted_app, !length_app. cbn [length].
      repeat split; try lia. intros Hres. specialize (IHeq Hres). lia.
Qed.

(** X12. When Telegram refuses the status message, the cycle goes through
    the handler: it hands two texts to Telegram, the message and then the
    report of the failed send, and [last_message] keeps its value; so a later
    cycle that renders the same message tries to send it again. *)
Theorem refused_status_is_tried_again (w w' : world) (st : state)
    (m err : string) :
  result (snd (main_message w st)) = inr m ->
  m <> last_message st ->
  tg_status w = TgError err ->
  result (snd (main_message w' (fst (main_cycle w st)))) = inr m ->
  attempted (trace (snd (main_cycle w st))) = [m; failure_text (send_failed err)]
  /\ last_message (fst (main_cycle w st)) = last_message st
  /\ In m (attempted (trace (snd (main_cycle w' (fst (main_cycle w st)))))).
Proof.
  intros Hmsg Hnew Hbot Hagain.
  pose proof (main_cycle_by_message w st) as H. cbv zeta in H.
  rewrite Hmsg, Hbot in H. apply String.eqb_neq in Hnew. rewrite Hnew in H.
  destruct H as [Hatt [Hlast _]].
  split; [exact Hatt |]. split; [exact Hlast |].
  pose proof (main_cycle_by_message w' (fst (main_cycle w st))) as H'. cbv zeta in H'.
  rewrite Hagain, Hlast, Hnew in H'.
  destruct (tg_status w'); destruct H' as [-> _]; left; reflexivity.
Qed.

(** X13. A failing cycle does not reset the comparison of line 162: when a
    message has been delivered, then a cycle fails at fetch, validation or
    extraction, then the same message is rendered again, the message is not
    sent a second time; the chat gets the message and the failure report. *)
Theorem dedup_survives_a_failing_cycle (w1 w2 w3 : world) (st : state)
    (m : string) (e : exn) :
  m <> last_message st ->
  successful w1 m ->
  (forall st', result (snd (main_message w2 st')) = inl e) ->
  tg_failure w2 = Delivered ->
  successful w3 m ->
  attempted (trace (snd (main_loop [w1; w2; w3] st))) = [m; failure_text e]
  /\ last_message (fst (main_loop [w1; w2; w3] st)) = m
  /\ result (snd (main_loop [w1; w2; w3] st)) = inr tt.
Proof.
  intros Hnew [Hmsg1 Hbot1] Hmsg2 Hbot2 [Hmsg3 Hbot3].
  apply String.eqb_neq in Hnew.
  pose proof (main_cycle_by_message w1 st) as H1. cbv zeta in H1.
  rewrite Hmsg1, Hbot1, Hnew in H1. destruct H1 as [Hatt1 [Hlast1 Hres1]].
  set (st1 := fst (main_cycle w1 st)) in *.
  pose proof (main_cycle_by_message w2 st1) as H2. cbv zeta in H2.
  rewrite Hmsg2, Hbot2 in H2. destruct H2 as [Hatt2 [Hlast2 Hres2]].
  set (st2 := fst (main_cycle w2 st1)) in *.
  pose proof (main_cycle_by_message w3 st2) as H3. cbv zeta in H3.
  rewrite Hmsg3, Hlast2, Hlast1, String.eqb_refl in H3.
  destruct H3 as [Hatt3 [Hlast3 Hres3]].
  rewrite main_loop_cons. cbv zeta. fold st1. rewrite Hres1.
  rewrite main_loop_cons. cbv zeta. fold st2. rewrite Hres2.
  rewrite main_loop_cons. cbv zeta. rewrite Hres3.
  cbn [main_loop fst snd trace result].
  rewrite !attempted_app, Hatt1, Hatt2, Hatt3.
  split; [reflexivity |]. split; [| reflexivity].
  exact Hlast3.
Qed.

(** X14. An answer that is a mapping without [current_date] leaves [None] in
    the cursor (and fails validation, so the cycle reports it); the request
    of the next cycle then carries the clock of that cycle instead of a
    cursor. *)
Theorem missing_current_date_resets_cursor (w w' : world) (st : state)
    (kvs : list (string * value)) :
  result (get_api_answer w (current_timestamp st)) = inr (VDict kvs) ->
  dict_get "current_date" kvs = None ->
  current_timestamp (fst (main_cycle w st)) = VNone
  /\ attempted (trace (snd (main_cycle w st))) =
       [failure_text (exc NonCorrectResponseFromAPI "Нет ключа homeworks в ответе API")]
  /\ requests (trace (snd (main_cycle w' (fst (main_cycle w st))))) =
       [VInt (time_time w')].
Proof.
  intros Hfetch Hdate.
  assert (Hcheck : result (check_response (VDict kvs)) =
                   inl (exc NonCorrectResponseFromAPI "Нет ключа homeworks в ответе API")).
  { rewrite check_response_result. unfold dict_has. rewrite Hdate, andb_false_r.
    reflexivity. }
  assert (Hmsg : main_message w st =
                 (State VNone (last_message st),
                  ((trace (get_api_answer w (current_timestamp st))
                    ++ trace (check_response (VDict kvs)))%list,
                   inl (exc NonCorrectResponseFromAPI "Нет ключа homeworks в ответе API")))).
  { rewrite main_message_unfold. cbv zeta. rewrite Hfetch, Hcheck, Hdate. reflexivity. }
  assert (Hcursor : current_timestamp (fst (main_cycle w st)) = VNone).
  { destruct (main_cycle_cursor w st) as [-> _]. rewrite Hmsg. reflexivity. }
  split; [exact Hcursor |]. split.
  - pose proof (main_cycle_by_message w st) as H. cbv zeta in H.
    rewrite Hmsg in H. cbn [snd result] in H. destruct H as [-> _]. reflexivity.
  - destruct (main_cycle_cursor w' (fst (main_cycle w st))) as [_ ->].
    destruct (main_message_stage w' (fst (main_cycle w st))) as [_ [-> _]].
    rewrite Hcursor. reflexivity.
Qed.

Lemma skip_repeats_same (m : string) (n : nat) :
  skip_repeats m (repeat m n) = [].
Proof.
  induction n as [| n IH]; [reflexivity |].
  cbn [repeat skip_repeats]. rewrite String.eqb_refl. exact IH.
Qed.

Lemma main_loop_successful_last (ws : list world) (ms : list string) :
  Forall2 successful ws ms ->
  forall st, last_message (fst (main_loop ws st)) = last ms (last_message st).
Proof.
  induction 1 as [| w m ws ms [Hmsg Hbot] _ IH]; intros st; [reflexivity |].
  destruct (successful_cycle w st m (Hmsg st) Hbot) as [_ [_ [Hlast Hres]]].
  rewrite main_loop_cons. cbv zeta. rewrite Hres. cbn [fst snd].
  rewrite IH, Hlast, last_cons_default. reflexivity.
Qed.

Lemma last_repeat (m d : string) (n : nat) : last (repeat m (S n)) d = m.
Proof.
  change (repeat m (S n)) with (m :: repeat m n). rewrite last_cons_default.
  induction n as [| n IH]; [reflexivity |].
  change (repeat m (S n)) with (m :: repeat m n). rewrite last_cons_default.
  exact IH.
Qed.

(** X15. However many cycles in a row render the same message, it reaches
    the chat once: when every cycle of a run renders [m], Telegram accepts,
    and [m] is not already in [last_message], the run hands [m] to Telegram in
    its first cycle and nothing afterwards. *)
Theorem one_notification_per_unchanged_message (w : world) (ws : list world)
    (st : state) (m : string) :
  m <> last_message st ->
  Forall (fun w => successful w m) (w :: ws) ->
  attempted (trace (snd (main_loop (w :: ws) st))) = [m]
  /\ delivered (trace (snd (main_loop (w :: ws) st))) = [m]
  /\ last_message (fst (main_loop (w :: ws) st)) = m.
Proof.
  intros Hnew Hall.
  assert (Hpairs : Forall2 successful (w :: ws) (repeat m (length (w :: ws)))).
  { induction Hall as [| w0 ws0 Hw _ IH]; [apply Forall2_nil |].
    cbn [length repeat]. apply Forall2_cons; assumption. }
  destruct (main_loop_successful _ _ Hpairs st) as [Hatt [Hdel _]].
  assert (Hskip : skip_repeats (last_message st) (repeat m (length (w :: ws))) = [m]).
  { cbn [length repeat skip_repeats]. apply String.eqb_neq in Hnew. rewrite Hnew.
    rewrite skip_repeats_same. reflexivity. }
  rewrite Hatt, Hdel, Hskip. split; [reflexivity |]. split; [reflexivity |].
  rewrite (main_loop_successful_last _ _ Hpairs st).
  cbn [length]. apply last_repeat.
Qed.

(** X16. [get_api_answer] does not look at what it decoded: a 200 answer
    whose body is valid JSON but not an object (a list, a number, a text) is
    returned as it is, and the cycle fails at line 156, before validation,
    with the [AttributeError] of the missing [get]; the cursor stays and the
    failure is reported. *)
Theorem non_mapping_body_fails_before_validation (w : world) (st : state)
    (body : value) :
  result (get_api_answer w (current_timestamp st)) = inr body ->
  (forall kvs, body <> VDict kvs) ->
  snd (main_message w st) =
    (trace (get_api_answer w (current_timestamp st)),
     inl (exc AttributeError ("'" ++ type_name body ++ "' object has no attribute 'get'")))
  /\ current_timestamp (fst (main_cycle w st)) = current_timestamp st
  /\ attempted (trace (snd (main_cycle w st))) =
       [failure_text
          (exc AttributeError ("'" ++ type_name body ++ "' object has no attribute 'get'"))].
Proof.
  intros Hfetch Hnot.
  assert (Hmsg : main_message w st =
                 (st, (trace (get_api_answer w (current_timestamp st)),
                       inl (exc AttributeError
                              ("'" ++ type_name body ++ "' object has no attribute 'get'"))))).
  { rewrite main_message_unfold. cbv zeta. rewrite Hfetch.
    destruct body as [| b | n | x | s | xs | kvs]; try reflexivity.
    exfalso. apply (Hnot kvs). reflexivity. }
  split; [rewrite Hmsg; reflexivity |]. split.
  - destruct (main_cycle_cursor w st) as [-> _]. rewrite Hmsg. reflexivity.
  - pose proof (main_cycle_by_message w st) as H. cbv zeta in H.
    rewrite Hmsg in H. cbn [snd result] in H. destruct H as [-> _]. reflexivity.
Qed.

End Properties.

(** ** The properties at concrete inputs *)

(** C1: the claim fails when validation or extraction fails after a fetch
    that returned a mapping: the cursor has moved all the same. *)
Lemma cursor_moves_despite_failed_validation :
  (result (check_response repr_utf8 batch_without_list) =
     inl (exc TypeError "Ответ в API homeworks:none не является list")
   /\ current_timestamp
        (fst (main_cycle repr_utf8 (answers batch_without_list) loop_start)) =
        VInt 1700000000)
  /\ (result (parse_status repr_utf8 (VDict record_lost)) = inl (UnknownVerdict "lost")
      /\ current_timestamp
           (fst (main_cycle repr_utf8 (answers (batch [VDict record_lost] 1700000000))
                   loop_start)) =
           VInt 1700000000)
  /\ current_timestamp loop_start = VInt 1667322796.
Proof. repeat split; reflexivity. Qed.

(** C2: the claim fails when the send of the failure report fails: the
    exception leaves the loop, and the second cycle never makes its
    request. *)
Lemma failed_report_ends_the_loop :
  result (snd (main_loop repr_utf8 [unreachable (TgError "down"); answers (batch [] 1700000000)]
                 loop_start)) =
    inl (send_failed "down")
  /\ requests (trace (snd (main_loop repr_utf8
                            [unreachable (TgError "down"); answers (batch [] 1700000000)]
                            loop_start))) =
       [VInt 1667322796].
Proof. split; reflexivity. Qed.

Lemma stage_error_reported_once_witness :
  result (snd (main_message repr_utf8 (unreachable Delivered) loop_start)) =
    inl unreachable_error
  /\ attempted (trace (snd (main_cycle repr_utf8 (unreachable Delivered) loop_start))) =
       [failure_text repr_utf8 unreachable_error].
Proof.
  split; [reflexivity |].
  exact (proj1 (stage_error_reported_once repr_utf8 (unreachable Delivered) loop_start
                  unreachable_error eq_refl)).
Defined.

Lemma dedup_against_last_message_witness :
  let m1 := status_text "proj1" "Работа проверена: ревьюеру всё понравилось. Ура!" in
  let m2 := status_text "proj1" "Работа проверена: у ревьюера есть замечания." in
  let w1 := answers (batch [VDict record_approved] 1700000000) in
  let w2 := answers (batch [VDict record_rejected] 1700000600) in
  attempted (trace (snd (main_loop repr_utf8 [w1; w1; w2; w1] loop_start))) = [m1; m2; m1].
Proof.
  cbv zeta.
  refine (proj1 (proj2 (dedup_against_last_message repr_utf8) _ _ _ _ _ _ _ _ _ _ _));
    first [ discriminate
          | split; [intros st; reflexivity | reflexivity] ].
Defined.

(** C4: the claim fails on a failure report: it is delivered and
    [last_message] still holds the empty text. *)
Lemma failure_report_is_not_recorded :
  delivered (trace (snd (main_cycle repr_utf8 (unreachable Delivered) loop_start))) =
    ["Сбой в работе программы: Ошибка при запросе к API: boom"]
  /\ last_message (fst (main_cycle repr_utf8 (unreachable Delivered) loop_start)) = "".
Proof. split; reflexivity. Qed.

(** C6: the claim fails on a status that cannot be hashed: the membership
    test of line 122 raises a [TypeError] before the unknown-status
    [KeyError] is reached. *)
Lemma unhashable_status_raises_TypeError :
  dict_get "homework_name" record_unhashable = Some (VStr "proj1")
  /\ verdict_of (status_of record_unhashable) = None
  /\ result (parse_status repr_utf8 (VDict record_unhashable)) =
       inl (exc TypeError "unhashable type: 'list'").
Proof. repeat split; reflexivity. Qed.

Lemma parse_status_known_or_unknown_witness :
  (exists verdict,
      dict_get "approved" HOMEWORK_VERDICTS = Some verdict
      /\ result (parse_status repr_utf8 (VDict record_approved)) =
           inr (status_text "proj1" verdict))
  /\ result (parse_status repr_utf8 (VDict record_lost)) = inl (UnknownVerdict "lost").
Proof.
  split.
  - apply (proj1 (parse_status_known_or_unknown repr_utf8 record_approved (VStr "proj1")
                    eq_refl) "approved").
    + left. reflexivity.
    + reflexivity.
  - apply (proj2 (parse_status_known_or_unknown repr_utf8 record_lost (VStr "proj1")
                    eq_refl)).
    + reflexivity.
    + intros status [<- | [<- | [<- | []]]]; discriminate.
Defined.

(** C8: the claim fails on the literal: for an empty list the message is the
    text of line 161, which is not the text the claim quotes. *)
Lemma empty_batch_message_is_not_the_quoted_text :
  result (snd (main_message repr_utf8 (answers (batch [] 1700000000)) loop_start)) =
    inr "Статус не изменился"
  /\ ("Статус не изменился" =? "Status unchanged.") = false.
Proof. split; reflexivity. Qed.

Lemma empty_batch_message_witness :
  result (snd (main_message repr_utf8 (answers (batch [] 1700000000)) loop_start)) =
    inr "Статус не изменился".
Proof.
  exact (f_equal snd
           (empty_batch_message repr_utf8 (answers (batch [] 1700000000)) loop_start
              (batch [] 1700000000) eq_refl eq_refl)).
Defined.

Lemma failure_report_every_cycle_witness :
  delivered (trace (snd (main_loop repr_utf8
                           [unreachable Delivered; unreachable Delivered; unreachable Delivered]
                           loop_start))) =
    repeat "Сбой в работе программы: Ошибка при запросе к API: boom" 3.
Proof.
  refine (proj1 (proj2 (failure_report_every_cycle repr_utf8) _ loop_start
                   unreachable_error _)).
  repeat split; reflexivity.
Defined.

Lemma parse_status_without_status_witness :
  result (parse_status repr_utf8 (VDict record_without_status)) =
    inl (UnknownVerdict "None").
Proof.
  exact (proj1 (parse_status_without_status repr_utf8 record_without_status (VStr "proj1")
                  eq_refl eq_refl)).
Defined.

(** The first end-to-end scenario of the specification: an approved homework
    is announced and the cursor moves to the server's [current_date]. *)
Example approved_homework_is_announced :
  let c :=
    main_cycle repr_utf8 (answers (batch [VDict record_approved] 1700000000)) loop_start in
  fst c = State (VInt 1700000000)
            (status_text "proj1" "Работа проверена: ревьюеру всё понравилось. Ура!")
  /\ delivered (trace (snd c)) =
       [status_text "proj1" "Работа проверена: ревьюеру всё понравилось. Ура!"]
  /\ result (snd c) = inr tt.
Proof. repeat split; reflexivity. Qed.

(** ** Further properties at concrete inputs *)

Lemma main_exits_without_tokens_witness :
  result (main repr_utf8 tokens_incomplete Delivered [answers (batch [] 1700000000)]) =
    inl (exc SystemExit "Отсутствуют переменные окружения. Бот прекращает работу!").
Proof.
  exact (proj1 (main_exits_without_tokens repr_utf8 tokens_incomplete Delivered
                  [answers (batch [] 1700000000)]
                  (or_intror (or_introl (or_introl eq_refl))))).
Defined.



Lemma parse_status_needs_a_mapping_witness :
  exists e,
    result (parse_status repr_utf8 (VInt 3)) = inl e
    /\ (exc_cls e = TypeError \/ e = MissingField \/ exc_cls e = AttributeError).
Proof.
  apply (parse_status_needs_a_mapping repr_utf8 (VInt 3)).
  intros kvs. discriminate.
Defined.

Lemma verdict_change_changes_message_witness :
  (approved_text =? rejected_text) = false.
Proof.
  apply String.eqb_neq.
  apply (verdict_change_changes_message repr_utf8 record_approved record_rejected
           (VStr "proj1") approved_text rejected_text eq_refl eq_refl).
  - discriminate.
  - reflexivity.
  - reflexivity.
Defined.

Lemma only_first_homework_counts_witness :
  attempted (trace (snd (main_cycle repr_utf8
                           (answers (batch [VDict record_approved; VDict record_lost]
                                       1700000000))
                           loop_start))) =
    attempted (trace (snd (main_cycle repr_utf8
                             (answers (batch [VDict record_approved] 1700000000))
                             loop_start))).
Proof.
  exact (proj1 (proj2
           (only_first_homework_counts repr_utf8
              (answers (batch [VDict record_approved; VDict record_lost] 1700000000))
              (answers (batch [VDict record_approved] 1700000000))
              loop_start
              (answer_of [VDict record_approved; VDict record_lost])
              (answer_of [VDict record_approved])
              (VDict record_approved) [VDict record_lost] []
              eq_refl eq_refl eq_refl eq_refl eq_refl eq_refl))).
Defined.

Lemma refused_status_is_tried_again_witness :
  attempted (trace (snd (main_cycle repr_utf8
                           (refusing (batch [VDict record_approved] 1700000000))
                           loop_start))) =
    [approved_text; failure_text repr_utf8 (send_failed "down")].
Proof.
  refine (proj1 (refused_status_is_tried_again repr_utf8
                   (refusing (batch [VDict record_approved] 1700000000))
                   (answers (batch [VDict record_approved] 1700000000))
                   loop_start approved_text "down" eq_refl _ eq_refl eq_refl)).
  discriminate.
Defined.

Lemma dedup_survives_a_failing_cycle_witness :
  attempted (trace (snd (main_loop repr_utf8
                           [answers (batch [VDict record_approved] 1700000000);
                            unreachable Delivered;
                            answers (batch [VDict record_approved] 1700000000)]
                           loop_start))) =
    [approved_text; failure_text repr_utf8 unreachable_error].
Proof.
  refine (proj1 (dedup_survives_a_failing_cycle repr_utf8
                   (answers (batch [VDict record_approved] 1700000000))
                   (unreachable Delivered)
                   (answers (batch [VDict record_approved] 1700000000))
                   loop_start approved_text unreachable_error _ _ _ eq_refl _)).
  - discriminate.
  - split; [intros st; reflexivity | reflexivity].
  - intros st. reflexivity.
  - split; [intros st; reflexivity | reflexivity].
Defined.

Lemma missing_current_date_resets_cursor_witness :
  current_timestamp
    (fst (main_cycle repr_utf8 (answers (VDict [("homeworks", VList [])])) loop_start)) =
    VNone.
Proof.
  exact (proj1 (missing_current_date_resets_cursor repr_utf8
                  (answers (VDict [("homeworks", VList [])]))
                  (answers (batch [] 1700000000)) loop_start
                  [("homeworks", VList [])] eq_refl eq_refl)).
Defined.

Lemma one_notification_per_unchanged_message_witness :
  delivered (trace (snd (main_loop repr_utf8
                           [answers (batch [] 1700000000);
                            answers (batch [] 1700000600);
                            answers (batch [] 1700001200)]
                           loop_start))) =
    ["Статус не изменился"].
Proof.
  refine (proj1 (proj2 (one_notification_per_unchanged_message repr_utf8
                          (answers (batch [] 1700000000))
                          [answers (batch [] 1700000600); answers (batch [] 1700001200)]
                          loop_start "Статус не изменился" _ _))).
  - discriminate.
  - repeat (apply Forall_cons; [split; [intros st; reflexivity | reflexivity] |]).
    apply Forall_nil.
Defined.

Lemma non_mapping_body_fails_before_validation_witness :
  attempted (trace (snd (main_cycle repr_utf8 (answers (VList [])) loop_start))) =
    [failure_text repr_utf8
       (exc AttributeError "'list' object has no attribute 'get'")].
Proof.
  refine (proj2 (proj2 (non_mapping_body_fails_before_validation repr_utf8
                          (answers (VList [])) loop_start (VList []) eq_refl _))).
  intros kvs. discriminate.
Defined.
